(** * SmartStock frontend: session store, request pipeline, authorization
      predicate and stock preview

    A shallow embedding of the session and authorization core of the
    SmartStock client:

    - [src/stores/authStore.ts]   the zustand session store and its
                                  rehydration hook;
    - [lib/api.ts]                the axios instance with its request and
                                  response interceptors;
    - [src/pages/Products.tsx],
      [src/pages/Inventory.tsx]   the permission checks and the stock
                                  preview of the adjustment dialog;
    - the login page, the sidebar, [ProtectedRoute] and the reports
      page, where they use the store and the pipeline;
    - [src/utils/dataTransform.ts] the key transformation.

    JavaScript objects are finite maps from property names to values,
    the store is a record threaded through the operations, and the
    interceptors run in a small state monad over the store and a trace of
    the effects they perform. *)

From Stdlib Require Import ZArith Ascii.
From stdpp Require Import gmap strings list fin_maps pretty.

Local Open Scope string_scope.
Local Open Scope Z_scope.

(** ** JavaScript values and objects *)

Module JS.

(** The primitive values that occur in the objects of the client.
    Numbers are the integers the forms and the backend exchange. *)
Inductive value : Type :=
| undefined
| null
| boolean (b : bool)
| number (z : Z)
| str (s : string).

#[global] Instance value_eq_dec : EqDecision value.
Proof. solve_decision. Defined.

(** [ToBoolean]: what [if (v)], [!v] and [v && w] test. *)
Definition truthy (v : value) : bool :=
  match v with
  | undefined | null => false
  | boolean b => b
  | number z => negb (z =? 0)
  | str s => negb (String.eqb s "")
  end.

(** [a === b] on primitive values. *)
Definition strict_eq (a b : value) : bool := bool_decide (a = b).

(** [a && b]: the left operand when it is falsy, else the right one. *)
Definition and_ (a b : value) : value := if truthy a then b else a.

(** An object: its own enumerable properties. *)
Abbreviation object := (gmap string value).

(** [o.k], which is [undefined] for a missing property. *)
Definition get (o : object) (k : string) : value := default undefined (o !! k).

(** [{ ...a, ...b }]: the properties of [b] win. *)
Definition spread (a b : object) : object := b ∪ a.

(** The truthiness of an optional string argument or field
    ([string | null], [refreshToken?: string]). *)
Definition truthy_str (o : option string) : bool :=
  match o with
  | Some s => negb (String.eqb s "")
  | None => false
  end.

End JS.

Import JS.

(** ** The session store ([src/stores/authStore.ts]) *)

Module AuthStore.

(** [AuthState]; [user] is a [User] object or [null], the tokens are
    strings or [null]. *)
Record AuthState : Type := mkAuthState {
  user : option object;
  accessToken : option string;
  refreshToken : option string;
  isAuthenticated : bool;
  isLoading : bool
}.

(** The state the store is created with. *)
Definition initialState : AuthState :=
  {| user := None; accessToken := None; refreshToken := None;
     isAuthenticated := false; isLoading := false |}.

Definition login (u : object) (access refresh : string) (st : AuthState)
  : AuthState :=
  {| user := Some u; accessToken := Some access; refreshToken := Some refresh;
     isAuthenticated := true; isLoading := false |}.

Definition logout (st : AuthState) : AuthState :=
  {| user := None; accessToken := None; refreshToken := None;
     isAuthenticated := false; isLoading := false |}.

(** [updateUser]: merges the update into the current user, when there
    is one. *)
Definition updateUser (userUpdate : object) (st : AuthState) : AuthState :=
  match user st with
  | Some currentUser =>
      {| user := Some (spread currentUser userUpdate);
         accessToken := accessToken st; refreshToken := refreshToken st;
         isAuthenticated := isAuthenticated st; isLoading := isLoading st |}
  | None => st
  end.

Definition setLoading (loading : bool) (st : AuthState) : AuthState :=
  {| user := user st; accessToken := accessToken st;
     refreshToken := refreshToken st;
     isAuthenticated := isAuthenticated st; isLoading := loading |}.

(** [updateTokens(accessToken, refreshToken?)]:
    [set({ accessToken, ...(refreshToken && { refreshToken }) })]. *)
Definition updateTokens (access : string) (refresh : option string)
    (st : AuthState) : AuthState :=
  {| user := user st;
     accessToken := Some access;
     refreshToken := if truthy_str refresh then refresh else refreshToken st;
     isAuthenticated := isAuthenticated st;
     isLoading := isLoading st |}.

(** The migration of [onRehydrateStorage], on the stored user. The
    result is [fixedUser] and the flag [needsMigration]. *)
Definition migrateUser (u : object) : object * bool :=
  let fixedUser := u in
  let needsMigration := false in
  let '(fixedUser, needsMigration) :=
    if negb (truthy (get u "departmentId")) && truthy (get u "department_id")
    then (<["departmentId" := get u "department_id"]> fixedUser, true)
    else (fixedUser, needsMigration) in
  let '(fixedUser, needsMigration) :=
    if negb (truthy (get u "departmentName")) && truthy (get u "department_name")
    then (<["departmentName" := get u "department_name"]> fixedUser, true)
    else (fixedUser, needsMigration) in
  let '(fixedUser, needsMigration) :=
    if truthy (get u "department_id")
    then (delete "department_id" fixedUser, true)
    else (fixedUser, needsMigration) in
  let '(fixedUser, needsMigration) :=
    if truthy (get u "department_name")
    then (delete "department_name" fixedUser, true)
    else (fixedUser, needsMigration) in
  (fixedUser, needsMigration).

(** [onRehydrateStorage: () => (state) => ...]; the argument is the
    rehydrated state, or [undefined] when there is none. *)
Definition onRehydrateStorage (state : option AuthState) : option AuthState :=
  match state with
  | Some st =>
      match user st with
      | Some u =>
          let '(fixedUser, needsMigration) := migrateUser u in
          if needsMigration
          then Some {| user := Some fixedUser;
                       accessToken := accessToken st;
                       refreshToken := refreshToken st;
                       isAuthenticated := isAuthenticated st;
                       isLoading := isLoading st |}
          else Some st
      | None => Some st
      end
  | None => None
  end.

(** The operations of the store, as data, and their runs from a state. *)
Inductive Action : Type :=
| Login (u : object) (access refresh : string)
| Logout
| UpdateUser (userUpdate : object)
| SetLoading (loading : bool)
| UpdateTokens (access : string) (refresh : option string).

Definition dispatch (a : Action) (st : AuthState) : AuthState :=
  match a with
  | Login u access refresh => login u access refresh st
  | Logout => logout st
  | UpdateUser upd => updateUser upd st
  | SetLoading b => setLoading b st
  | UpdateTokens access refresh => updateTokens access refresh st
  end.

(** [run acts st]: the actions of [acts] applied in order, first to last. *)
Definition run (acts : list Action) (st : AuthState) : AuthState :=
  foldl (fun s a => dispatch a s) st acts.

(** [isAuthenticated == (user != null && accessToken != null)]. *)
Definition session_invariant (st : AuthState) : Prop :=
  isAuthenticated st
  = bool_decide (user st ≠ None) && bool_decide (accessToken st ≠ None).


End AuthStore.

(** ** Permission checks ([Products.tsx], [Inventory.tsx]) *)

Module Permissions.

(** [canEditProduct(product)] of the products page; [u] is the [user]
    of the store. The result is a JavaScript value: the staff branch
    returns the operand of [&&] that decided it. *)
Definition canEditProduct (u : option object) (product : object) : value :=
  match u with
  | None => boolean false
  | Some u =>
      if strict_eq (get u "role") (str "manager") then boolean true
      else if strict_eq (get u "role") (str "staff") then
        and_ (get u "departmentId")
             (boolean (strict_eq (get product "department_id")
                                 (get u "departmentId")))
      else boolean false
  end.

(** [canAdjustStock(product)] of the inventory page (its logging
    left out). *)
Definition canAdjustStock (u : option object) (product : object) : value :=
  match u with
  | None => boolean false
  | Some u =>
      if strict_eq (get u "role") (str "manager") then boolean true
      else if strict_eq (get u "role") (str "staff") then
        let canAdjust :=
          and_ (get u "departmentId")
               (boolean (strict_eq (get product "department_id")
                                   (get u "departmentId"))) in
        canAdjust
      else boolean false
  end.

(** [canDeleteProduct()]: [user?.role === 'manager']. *)
Definition canDeleteProduct (u : option object) : bool :=
  strict_eq (match u with Some u => get u "role" | None => undefined end)
            (str "manager").

(** The callers test the result: [if (!canAdjustStock(product))],
    [canEditProduct(product) && ...]. *)
Definition allowed (v : value) : bool := truthy v.

End Permissions.

(** ** The preview of the stock adjustment dialog ([Inventory.tsx]) *)

Module StockPreview.

(** The options of the change type select. *)
Inductive ChangeType : Type := restock | sale | adjustment | return_.

#[global] Instance ChangeType_eq_dec : EqDecision ChangeType.
Proof. solve_decision. Defined.

(** The watched quantity field is a number, or [NaN] / [undefined]
    while the input is empty: [None] stands for both. *)
Definition orZero (quantityChanged : option Z) : Z :=
  match quantityChanged with
  | Some q => q            (* [0 || 0] is [0] as well *)
  | None => 0
  end.

(** [quantityChanged > quantity_in_stock]; false on [NaN] and
    [undefined]. *)
Definition exceeds (quantityChanged : option Z) (quantity_in_stock : Z) : bool :=
  match quantityChanged with
  | Some q => quantity_in_stock <? q
  | None => false
  end.

(** The sign of the "Change:" line. *)
Definition changeSign (changeType : ChangeType) : string :=
  if bool_decide (changeType = sale) || bool_decide (changeType = adjustment)
  then "-" else "+".

(** The quantities are JavaScript numbers, that is doubles. What the
    preview can show for whole quantities: a whole number, or an
    infinity when the sum leaves the range of the doubles. *)
Inductive jsnumber : Type :=
| Int (z : Z)
| Infinity
| NegInfinity.

(** The distance between neighbouring doubles around [z]: 53 bits of
    significand. *)
Definition ulp (z : Z) : Z := 2 ^ Z.max 0 (Z.log2 (Z.abs z) - 52).

(** The whole number at a multiple of [ulp z] that is nearest to [z],
    the one with the even significand on a tie. *)
Definition nearest (z : Z) : Z :=
  let m := ulp z in
  let q := z / m in
  let r := z mod m in
  if 2 * r <? m then q * m
  else if m <? 2 * r then (q + 1) * m
  else if Z.even q then q * m else (q + 1) * m.

(** The double that [+] and [-] return for an exact result [z]: [z]
    rounded to nearest, and an infinity from [2 ^ 1024] on. *)
Definition fl (z : Z) : jsnumber :=
  let r := nearest z in
  if 2 ^ 1024 <=? r then Infinity
  else if r <=? - 2 ^ 1024 then NegInfinity
  else Int r.

(** Up to [2 ^ 53] in magnitude every whole number is a double. *)
Definition exact_bound : Z := 9007199254740992.

(** The "New Stock:" line; both quantities are whole doubles. *)
Definition newStock (changeType : ChangeType) (quantityChanged : option Z)
    (quantity_in_stock : Z) : jsnumber :=
  if bool_decide (changeType = sale)
     || (bool_decide (changeType = adjustment)
         && exceeds quantityChanged quantity_in_stock)
  then fl (quantity_in_stock - orZero quantityChanged)
  else fl (quantity_in_stock + orZero quantityChanged).

End StockPreview.

(** ** The request pipeline ([lib/api.ts]) *)

Module Api.

Import AuthStore.

(** The part of an axios request config the interceptors use: the
    target, the [Authorization] header and the [_retry] mark the
    response interceptor puts on a call it has already repaired. *)
Record Config : Type := mkConfig {
  url : string;
  Authorization : option string;
  _retry : bool
}.

#[global] Instance Config_eq_dec : EqDecision Config.
Proof. solve_decision. Defined.

(** An error as the response interceptor reads it:
    [error.response?.status], [error.response?.data?.error] and
    [error.message]. [status = None] is an error without a response
    (network failure, timeout). *)
Record AxiosError : Type := mkError {
  status : option Z;
  data_error : option string;
  message : string
}.

#[global] Instance AxiosError_eq_dec : EqDecision AxiosError.
Proof. solve_decision. Defined.

(** The settled promise of a call: the response body, or the error it
    is rejected with. *)
Inductive Result : Type :=
| Fulfilled (data : string)
| Rejected (error : AxiosError).

(** The outcome of [axios.post('/api/auth/refresh', { refreshToken })]:
    the [accessToken] of [response.data], or the error thrown inside the
    [try] block, or a reply whose data has no [accessToken], for which
    the destructuring gives [undefined]. *)
Inductive RefreshResult : Type :=
| RefreshOk (accessToken : string)
| RefreshFailed (refreshError : AxiosError)
| RefreshOkNoToken.

(** What the pipeline does to the outside, in order. *)
Inductive Event : Type :=
| Sent (config : Config)                (* a request put on the wire *)
| RefreshCalled (refreshToken : string) (* POST /api/auth/refresh *)
| TokensUpdated (accessToken : string)  (* updateTokens(accessToken) *)
| LoggedOut                             (* logout() *)
| Redirected (href : string)            (* window.location.href = href *)
| Toast (text : string).                (* toast.error(text) *)

(** The backend, as the client sees it: a response for each request and
    each refresh call, which may depend on everything that happened
    before. *)
Record Backend : Type := mkBackend {
  respond : list Event -> Config -> Result;
  refresh_endpoint : list Event -> string -> RefreshResult
}.

(** The world the interceptors run in: the store and the trace so far
    (oldest event first). *)
Record World : Type := mkWorld {
  store : AuthState;
  trace : list Event
}.

(** A computation over the world. *)
Definition M (A : Type) : Type := World -> A * World.

#[global] Instance M_ret : MRet M := fun A (a : A) w => (a, w).

#[global] Instance M_bind : MBind M :=
  fun A B (k : A -> M B) (m : M A) w => let '(a, w') := m w in k a w'.

Definition getState : M AuthState := fun w => (store w, w).

Definition modifyStore (f : AuthState -> AuthState) : M unit :=
  fun w => (tt, {| store := f (store w); trace := trace w |}).

Definition emit (e : Event) : M unit :=
  fun w => (tt, {| store := store w; trace := trace w ++ [e] |}).

Definition bearer (token : string) : string := "Bearer " ++ token.

(** [updateTokens(undefined)], which is [set({ accessToken: undefined })]:
    what the store makes of a refresh reply without token. *)
Definition unsetAccessToken (st : AuthState) : AuthState :=
  {| user := user st;
     accessToken := None;
     refreshToken := refreshToken st;
     isAuthenticated := isAuthenticated st;
     isLoading := isLoading st |}.

Definition silentErrors : list string := ["Invalid credentials"; "User not found"].

Section Pipeline.

Variable backend : Backend.

(** The adapter: the request goes out and the backend settles it. *)
Definition send (config : Config) : M Result :=
  fun w => (respond backend (trace w) config,
            {| store := store w; trace := trace w ++ [Sent config] |}).

(** The refresh call, made with the global axios (no interceptors). *)
Definition postRefresh (refreshToken : string) : M RefreshResult :=
  fun w => (refresh_endpoint backend (trace w) refreshToken,
            {| store := store w; trace := trace w ++ [RefreshCalled refreshToken] |}).

(** The request interceptor. *)
Definition requestInterceptor (config : Config) : M Config :=
  st ← getState;
  if truthy_str (accessToken st)
  then mret {| url := url config;
               Authorization := Some (bearer (default "" (accessToken st)));
               _retry := _retry config |}
  else mret config.

(** The "other errors" part of the response interceptor. *)
Definition notify (error : AxiosError) : M unit :=
  if truthy_str (data_error error) then
    let e := default "" (data_error error) in
    if bool_decide (e ∈ silentErrors) then mret tt else emit (Toast e)
  else if truthy_str (Some (message error)) then emit (Toast (message error))
  else mret tt.

(** The error branch of the response interceptor; [reissue] is
    [api(originalRequest)]. *)
Definition responseError (reissue : Config -> M (option Result))
    (originalRequest : Config) (error : AxiosError) : M (option Result) :=
  st ← getState;
  if bool_decide (status error = Some 401)
     && negb (_retry originalRequest)
     && truthy_str (refreshToken st)
  then
    let refreshToken := default "" (refreshToken st) in
    r ← postRefresh refreshToken;
    match r with
    | RefreshOk accessToken =>
        modifyStore (updateTokens accessToken None);;
        emit (TokensUpdated accessToken);;
        reissue {| url := url originalRequest;
                   Authorization := Some (bearer accessToken);
                   _retry := true |}
    | RefreshFailed refreshError =>
        modifyStore logout;;
        emit LoggedOut;;
        emit (Redirected "/login");;
        emit (Toast "Session expired. Please login again.");;
        mret (Some (Rejected refreshError))
    | RefreshOkNoToken =>
        (* [accessToken] is [undefined]: the store loses its token, and
           the template literal of the header reads "Bearer undefined";
           the event shows the token as the header does *)
        modifyStore unsetAccessToken;;
        emit (TokensUpdated "undefined");;
        reissue {| url := url originalRequest;
                   Authorization := Some (bearer "undefined");
                   _retry := true |}
    end
  else
    notify error;; mret (Some (Rejected error)).

(** [api(config)]: request interceptor, adapter, response interceptor.
    The interceptor calls [api] again for the one retry; [fuel] bounds
    that nesting, and [None] is "out of fuel". *)
Fixpoint api (fuel : nat) (config : Config) : M (option Result) :=
  match fuel with
  | O => mret None
  | S fuel' =>
      config' ← requestInterceptor config;
      r ← send config';
      match r with
      | Fulfilled data => mret (Some (Fulfilled data))
      | Rejected error => responseError (api fuel') config' error
      end
  end.

(** Two levels are all the interceptor can reach: the call and its one
    retry. *)
Definition call (config : Config) : M (option Result) := api 2 config.

End Pipeline.

(** Counting the events of one kind in a trace. *)
Definition isSent (e : Event) : bool :=
  match e with Sent _ => true | _ => false end.
Definition isRefreshCalled (e : Event) : bool :=
  match e with RefreshCalled _ => true | _ => false end.
Definition isLoggedOut (e : Event) : bool :=
  match e with LoggedOut => true | _ => false end.

Fixpoint count (p : Event -> bool) (tr : list Event) : nat :=
  match tr with
  | [] => O
  | e :: tr' => (if p e then 1 else 0)%nat + count p tr'
  end.

(** The events [notify] adds for an error. *)
Definition notifications (error : AxiosError) : list Event :=
  if truthy_str (data_error error) then
    let e := default "" (data_error error) in
    if bool_decide (e ∈ silentErrors) then [] else [Toast e]
  else if truthy_str (Some (message error)) then [Toast (message error)]
  else [].

(** The events the response interceptor adds when a call settles
    without a refresh. *)
Definition settled (r : Result) : list Event :=
  match r with
  | Fulfilled _ => []
  | Rejected error => notifications error
  end.

(** The config the request interceptor hands to the adapter. *)
Definition withCredential (st : AuthState) (config : Config) : Config :=
  if truthy_str (accessToken st)
  then {| url := url config;
          Authorization := Some (bearer (default "" (accessToken st)));
          _retry := _retry config |}
  else config.

(** The config of the one retry: marked, and carrying the new token. *)
Definition retried (config : Config) (accessToken : string) : Config :=
  {| url := url config; Authorization := Some (bearer accessToken);
     _retry := true |}.

(** The guard of the refresh branch of the response interceptor. *)
Definition recoverable (st : AuthState) (originalRequest : Config)
    (error : AxiosError) : bool :=
  bool_decide (status error = Some 401)
  && negb (_retry originalRequest)
  && truthy_str (refreshToken st).

End Api.

(** ** The pages and components around the store and the pipeline *)

Module Pages.

Import AuthStore Permissions StockPreview Api.

(** [user?.role]. *)
Definition roleOf (u : option object) : value :=
  match u with Some u => get u "role" | None => undefined end.

(** [a || b]: the left operand when it is truthy, else the right one. *)
Definition or_ (a b : value) : value := if truthy a then a else b.

(** What a template literal makes of a primitive value. *)
Definition to_string (v : value) : string :=
  match v with
  | undefined => "undefined"
  | null => "null"
  | boolean true => "true"
  | boolean false => "false"
  | number z => pretty z
  | str s => s
  end.

(** More event counters. *)
Definition isToast (e : Event) : bool :=
  match e with Toast _ => true | _ => false end.

(** *** [ProtectedRoute] *)

Inductive Rendered : Type :=
| Navigate (to : string)
| Children.

(** [ProtectedRoute({ children, requiredRole })], on the state of the
    store. *)
Definition ProtectedRoute (st : AuthState) (requiredRole : option string)
  : Rendered :=
  if negb (isAuthenticated st) then Navigate "/login"
  else if truthy_str requiredRole
          && negb (strict_eq (roleOf (user st)) (str (default "" requiredRole)))
  then Navigate "/dashboard"
  else Children.

(** *** The login page *)

(** The user object [onSubmit] hands to [login]:
    [{ ...rawUser, departmentId: rawUser.department_id,
       departmentName: rawUser.department_name }]. *)
Definition mapUser (rawUser : object) : object :=
  <["departmentName" := get rawUser "department_name"]>
    (<["departmentId" := get rawUser "department_id"]> rawUser).

Definition loginRequest : Config :=
  {| url := "/auth/login"; Authorization := None; _retry := false |}.

(** The [catch] block of [onSubmit]. *)
Definition onSubmitCatch (error : AxiosError) : M unit :=
  if truthy_str (data_error error)
  then emit (Toast (default "" (data_error error)))
  else emit (Toast "Login failed. Please try again.").

(** *** The sidebar *)

(** The screen: the world of the pipeline and the success toasts shown. *)
Record Ui : Type := mkUi {
  world : World;
  successes : list string
}.

Definition logoutRequest : Config :=
  {| url := "/auth/logout"; Authorization := None; _retry := false |}.

(** [handleLogout]: the backend is told when there is a refresh token;
    the [try] block and the [catch] block both end in [logout()] and the
    success toast. *)
Definition handleLogout (backend : Backend) (ui : Ui) : Ui :=
  let w := world ui in
  if truthy_str (refreshToken (store w)) then
    let '(r, w1) := call backend logoutRequest w in
    match r with
    | Some (Rejected _) =>
        {| world := (modifyStore logout w1).2;
           successes := successes ui ++ ["Logged out successfully"] |}
    | _ =>
        {| world := (modifyStore logout w1).2;
           successes := successes ui ++ ["Logged out successfully"] |}
    end
  else
    {| world := (modifyStore logout w).2;
       successes := successes ui ++ ["Logged out successfully"] |}.

(** *** The inventory page *)

(** The text shown in place of the button when [canAdjustStock] denies. *)
Definition deniedLabel (u : option object) (product : object) : string :=
  if truthy (get product "department_id") then
    if strict_eq (roleOf u) (str "staff") then "Different Dept." else "No Access"
  else "Unassigned - Admin Only".

(** The action cell of a product row. *)
Definition actionCell (u : option object) (product : object) : string :=
  if allowed (canAdjustStock u product) then "Adjust Stock"
  else deniedLabel u product.

(** The message [onError] of the adjustment mutation toasts;
    [code] is [error.code]. *)
Definition adjustErrorMessage (code : option string) (error : AxiosError)
  : string :=
  if bool_decide (code = Some "ERR_NETWORK")
  then "Network error - Backend server is not running"
  else if bool_decide (status error = Some 401)
  then "Authentication required - Please log in again"
  else if bool_decide (status error = Some 400)
  then (if truthy_str (data_error error) then default "" (data_error error)
        else "Invalid request data")
  else if truthy_str (data_error error) then default "" (data_error error)
  else "Failed to adjust stock".

Definition onError (code : option string) (error : AxiosError) : M unit :=
  emit (Toast (adjustErrorMessage code error)).

Definition updateInventoryRequest : Config :=
  {| url := "/inventory/update"; Authorization := None; _retry := false |}.

(** The status badge of a row: [quantity_in_stock === 0], then
    [is_low_stock]. [None] is a missing quantity. *)
Definition stockStatus (quantity_in_stock : option Z) (is_low_stock : bool)
  : string :=
  if bool_decide (quantity_in_stock = Some 0) then "Out of Stock"
  else if is_low_stock then "Low Stock"
  else "In Stock".

(** *** The products page *)

(** [product.is_low_stock =
      (product.quantity_in_stock || 0) <= (product.minimum_stock_level || 0)]. *)
Definition is_low_stock (quantity_in_stock minimum_stock_level : option Z)
  : bool :=
  orZero quantity_in_stock <=? orZero minimum_stock_level.

(** The badges beside the quantity. *)
Definition stockBadges (quantity_in_stock : option Z) (is_low_stock : bool)
  : list string :=
  (if is_low_stock then ["Low Stock"] else [])
  ++ (if orZero quantity_in_stock =? 0 then ["Out of Stock"] else []).

(** *** The reports page *)

Inductive StatsRequest : Type :=
| SetError (text : string)
| Fetch (url : string) (authorization : string).

(** What [fetchReportStats] does before it awaits the response: an
    error shown, or the request made. *)
Definition fetchReportStats (API_BASE_URL : string)
    (accessToken : option string) (u : option object) : StatsRequest :=
  if negb (truthy_str accessToken)
  then SetError "Authentication required. Please login again."
  else match u with
  | None => SetError "User information not available. Please login again."
  | Some u =>
      let userDepartmentId := or_ (get u "departmentId") (get u "department_id") in
      if strict_eq (get u "role") (str "staff") && negb (truthy userDepartmentId)
      then SetError "You must be assigned to a department to view reports. Contact your administrator."
      else
        let url := API_BASE_URL ++ "/inventory/summary" in
        let url :=
          if strict_eq (get u "role") (str "staff") && truthy userDepartmentId
          then url ++ "?departmentId=" ++ to_string userDepartmentId
          else url in
        Fetch url (bearer (default "" accessToken))
  end.

End Pages.

(** ** Key transformation ([src/utils/dataTransform.ts]) *)

Module DataTransform.

(** [[a-z]]. *)
Definition is_lower (c : ascii) : bool :=
  (97 <=? nat_of_ascii c)%nat && (nat_of_ascii c <=? 122)%nat.

(** [letter.toUpperCase()], for a letter of [[a-z]]. *)
Definition toUpperCase (c : ascii) : ascii :=
  ascii_of_nat (nat_of_ascii c - 32).

(** [str.replace(/_([a-z])/g, (_, letter) => letter.toUpperCase())]:
    the matches are found from left to right and do not overlap. *)
Fixpoint snakeToCamel (s : string) : string :=
  match s with
  | EmptyString => EmptyString
  | String c t =>
      if Ascii.eqb c "_" then
        match t with
        | String letter rest =>
            if is_lower letter
            then String (toUpperCase letter) (snakeToCamel rest)
            else String c (snakeToCamel t)
        | EmptyString => String c EmptyString
        end
      else String c (snakeToCamel t)
  end.

(** Whether a string starts with a letter of [[a-z]]. *)
Definition starts_lower (s : string) : bool :=
  match s with
  | String c _ => is_lower c
  | EmptyString => false
  end.

(** Whether the pattern [_[a-z]] has no match in a string. *)
Fixpoint unmatched (s : string) : bool :=
  match s with
  | EmptyString => true
  | String c t => negb (Ascii.eqb c "_" && starts_lower t) && unmatched t
  end.

(** The data of an API response: primitives, arrays, and objects as
    their entries, in the order of [Object.entries]. *)
#[local] Unset Elimination Schemes.
Inductive json : Type :=
| JPrim (v : value)
| JArr (items : list json)
| JObj (entries : list (string * json)).
#[local] Set Elimination Schemes.

(** [o[k] = v] on the entries of an object: an existing property keeps
    its place, a new one goes last. *)
Fixpoint assign (o : list (string * json)) (k : string) (v : json)
  : list (string * json) :=
  match o with
  | [] => [(k, v)]
  | (k', v') :: o' =>
      if String.eqb k' k then (k', v) :: o' else (k', v') :: assign o' k v
  end.

(** [o[k]] on the entries of an object. *)
Fixpoint lookup_entry (o : list (string * json)) (k : string) : option json :=
  match o with
  | [] => None
  | (k', v') :: o' => if String.eqb k' k then Some v' else lookup_entry o' k
  end.

(** [transformKeys(obj)]. *)
Fixpoint transformKeys (obj : json) : json :=
  match obj with
  | JPrim v => JPrim v
  | JArr items => JArr (map transformKeys items)
  | JObj entries =>
      JObj (foldl (fun transformed '(key, value) =>
                     assign transformed (snakeToCamel key) (transformKeys value))
                  [] entries)
  end.

(** The loop of [transformKeys] over the entries of an object, from the
    properties assigned so far. *)
Definition transformEntries (transformed entries : list (string * json))
  : list (string * json) :=
  foldl (fun transformed '(key, value) =>
           assign transformed (snakeToCamel key) (transformKeys value))
        transformed entries.

(** Truthiness of a response or of one of its properties. *)
Definition jtruthy (j : json) : bool :=
  match j with
  | JPrim v => truthy v
  | JArr _ | JObj _ => true
  end.

(** [j.k], for a property name that is not built in. *)
Definition jget (j : json) (k : string) : json :=
  match j with
  | JObj entries => default (JPrim undefined) (lookup_entry entries k)
  | JPrim _ | JArr _ => JPrim undefined
  end.

(** [transformApiResponse(response)]. *)
Definition transformApiResponse (response : json) : json :=
  if negb (jtruthy response) || negb (jtruthy (jget response "data"))
  then response
  else match response with
       | JObj entries =>
           JObj (assign entries "data" (transformKeys (jget response "data")))
       | JPrim _ | JArr _ => response
       end.

(** The keys of the entries of an object. *)
Definition keys (o : list (string * json)) : list string := o.*1.

(** A value [transformKeys] has nothing to do on: no key, at any depth,
    has a match of the pattern, and no object has a key twice. *)
Fixpoint camelCased (j : json) : Prop :=
  match j with
  | JPrim _ => True
  | JArr items =>
      (fix all (l : list json) : Prop :=
         match l with [] => True | x :: l' => camelCased x ∧ all l' end) items
  | JObj entries =>
      NoDup (keys entries)
      ∧ (fix all (l : list (string * json)) : Prop :=
           match l with
           | [] => True
           | (k, v) :: l' => unmatched k = true ∧ camelCased v ∧ all l'
           end) entries
  end.

End DataTransform.

(** ** Sample data *)

Module Examples.

Import AuthStore Api.

(** A staff member of department D1, in the current field layout. *)
Definition staffD1 : object :=
  <["id" := str "u1"]> (<["name" := str "Ada"]> (<["role" := str "staff"]>
    (<["departmentId" := str "D1"]> (<["departmentName" := str "Tools"]> ∅)))).

(** The same user as an older version of the client stored it. *)
Definition legacyStaffD1 : object :=
  <["id" := str "u1"]> (<["name" := str "Ada"]> (<["role" := str "staff"]>
    (<["department_id" := str "D1"]> (<["department_name" := str "Tools"]> ∅)))).

Definition managerUser : object :=
  <["id" := str "u2"]> (<["name" := str "Mo"]> (<["role" := str "manager"]> ∅)).

Definition productD1 : object :=
  <["id" := str "p1"]> (<["name" := str "Hammer"]>
    (<["department_id" := str "D1"]> (<["quantity_in_stock" := number 10]> ∅))).



(** A session of [staffD1]. *)
Definition session : AuthState :=
  login staffD1 "access-1" "refresh-1" initialState.

(** A session as it was persisted by the older version. *)
Definition legacySession : AuthState :=
  login legacyStaffD1 "access-1" "refresh-1" initialState.

(** A request as a page issues it, and the world it is issued in. *)
Definition request : Config :=
  {| url := "/inventory/update"; Authorization := None; _retry := false |}.

Definition world0 : World := {| store := session; trace := [] |}.

Definition unauthorized : AxiosError :=
  {| status := Some 401; data_error := Some "Token expired";
     message := "Request failed with status code 401" |}.

(** A backend for which [access-1] has expired: it accepts [access-2]
    only, and mints it for [refresh-1]. *)
Definition expiringBackend : Backend :=
  {| respond := fun _ config =>
       if bool_decide (Authorization config = Some (bearer "access-2"))
       then Fulfilled "ok" else Rejected unauthorized;
     refresh_endpoint := fun _ refreshToken =>
       if bool_decide (refreshToken = "refresh-1")
       then RefreshOk "access-2" else RefreshFailed unauthorized |}.


(** A backend whose refresh endpoint answers 2xx with a body that has no
    [accessToken]. *)
Definition tokenlessBackend : Backend :=
  {| respond := fun _ _ => Rejected unauthorized;
     refresh_endpoint := fun _ _ => RefreshOkNoToken |}.

(** A backend that has revoked the whole session. *)
Definition revokedBackend : Backend :=
  {| respond := fun _ _ => Rejected unauthorized;
     refresh_endpoint := fun _ _ => RefreshFailed unauthorized |}.

End Examples.

(** * Properties *)

Import AuthStore Permissions StockPreview Api.

Local Open Scope list_scope.

(** ** Truthiness *)

Lemma truthy_str_Some (o : option string) :
  truthy_str o = true ↔ ∃ s, o = Some s ∧ s ≠ "".
Proof.
  destruct o as [s|]; simpl.
  - rewrite negb_true_iff, String.eqb_neq. split.
    + intros Hs. by exists s.
    + intros (s' & [= <-] & Hs). exact Hs.
  - split; [discriminate | intros (s & [=] & _)].
Qed.

Lemma strict_eq_true (a b : value) : strict_eq a b = true ↔ a = b.
Proof. unfold strict_eq. apply bool_decide_eq_true. Qed.

Lemma strict_eq_false (a b : value) : strict_eq a b = false ↔ a ≠ b.
Proof. unfold strict_eq. apply bool_decide_eq_false. Qed.

(** ** The stock preview *)

(** Up to [2 ^ 53] in magnitude the arithmetic of the doubles is exact. *)
Lemma nearest_exact (z : Z) : Z.abs z <= exact_bound → nearest z = z.
Proof.
  unfold exact_bound. intros Hz.
  destruct (Z.eq_dec (Z.abs z) 9007199254740992) as [Heq | Hne].
  - assert (z = 9007199254740992 ∨ z = -9007199254740992) as [-> | ->] by lia;
      by vm_compute.
  - assert (Z.log2 (Z.abs z) < 53) as Hlog.
    { destruct (Z.eq_dec (Z.abs z) 0) as [-> | Hpos]; [done|].
      apply Z.log2_lt_pow2; [lia|]. change (2 ^ 53) with 9007199254740992. lia. }
    unfold nearest, ulp. rewrite Z.max_l by lia.
    change (2 ^ 0) with 1. rewrite Z.div_1_r, Z.mod_1_r. simpl. lia.
Qed.

Lemma fl_exact (z : Z) : Z.abs z <= exact_bound → fl z = Int z.
Proof.
  intros Hz. unfold fl. rewrite (nearest_exact z Hz). cbv zeta.
  unfold exact_bound in Hz.
  assert ((2 ^ 1024 <=? z) = false) as ->.
  { apply Z.leb_gt.
    apply Z.le_lt_trans with (m := 9007199254740992); [lia|]. by vm_compute. }
  assert ((z <=? - 2 ^ 1024) = false) as ->; [|done].
  apply Z.leb_gt.
  apply Z.lt_le_trans with (m := -9007199254740992); [by vm_compute | lia].
Qed.

(** What the "New Stock:" line computes before rounding. *)
Lemma newStock_fl (changeType : ChangeType) (quantityChanged : option Z)
    (quantity_in_stock : Z) :
  newStock changeType quantityChanged quantity_in_stock
  = fl (if bool_decide (changeType = sale)
           || (bool_decide (changeType = adjustment)
               && exceeds quantityChanged quantity_in_stock)
        then quantity_in_stock - orZero quantityChanged
        else quantity_in_stock + orZero quantityChanged).
Proof. unfold newStock. by destruct (_ || _). Qed.




(** The two branches of an adjustment, as the source has them. *)
Lemma preview_adjustment_cases (previousQuantity q : Z) :
  newStock adjustment (Some q) previousQuantity
  = fl (if previousQuantity <? q then previousQuantity - q
        else previousQuantity + q).
Proof. rewrite newStock_fl. simpl. by destruct (previousQuantity <? q). Qed.

(** C1, at the two sample inputs of the specification: an adjustment of
    15 on a stock of 10 previews -5, not 25, and an adjustment of 3
    previews 13, not 7. *)
Lemma preview_adjustment_counterexample :
  newStock adjustment (Some 15) 10 = Int (-5)
  ∧ newStock adjustment (Some 15) 10 ≠ Int (10 + 15)
  ∧ newStock adjustment (Some 3) 10 = Int 13
  ∧ newStock adjustment (Some 3) 10 ≠ Int (10 - 3).
Proof. repeat split; vm_compute; discriminate. Qed.

(** C1, amended. An adjustment by a positive quantity that exceeds the
    current quantity previews [previousQuantity - quantityChanged], a
    negative number, in line with the minus sign of the change line;
    exactly so as long as that number is no less than [- 2 ^ 53], where
    the numbers of JavaScript are exact. *)
Theorem preview_adjustment_exceeding (previousQuantity q : Z) :
  0 < q → previousQuantity < q →
  - exact_bound <= previousQuantity - q →
  newStock adjustment (Some q) previousQuantity = Int (previousQuantity - q)
  ∧ previousQuantity - q < 0
  ∧ changeSign adjustment = "-".
Proof.
  intros Hq Hlt Hbound. rewrite preview_adjustment_cases.
  apply Z.ltb_lt in Hlt as Hb. rewrite Hb.
  rewrite fl_exact by lia. repeat split. lia.
Qed.

Lemma preview_adjustment_exceeding_witness :
  newStock adjustment (Some 15) 10 = Int (10 - 15)
  ∧ 10 - 15 < 0
  ∧ changeSign adjustment = "-".
Proof. apply (preview_adjustment_exceeding 10 15); by vm_compute. Defined.

(** Beyond [2 ^ 53] the difference is rounded: an adjustment of
    [2 ^ 53 + 2] on a stock of 1 previews [- 2 ^ 53]. *)
Example preview_adjustment_rounded :
  newStock adjustment (Some 9007199254740994) 1 = Int (-9007199254740992).
Proof. by vm_compute. Qed.

(** Below the current quantity the two lines of the preview disagree:
    the change line shows a minus sign and the new stock is the sum. *)
Remark preview_adjustment_within (previousQuantity q : Z) :
  q <= previousQuantity →
  Z.abs (previousQuantity + q) <= exact_bound →
  newStock adjustment (Some q) previousQuantity = Int (previousQuantity + q)
  ∧ changeSign adjustment = "-".
Proof.
  intros Hle Hbound. rewrite preview_adjustment_cases.
  apply Z.ltb_ge in Hle as ->. by rewrite fl_exact.
Qed.

(** ** The permission checks *)

Lemma canAdjustStock_canEditProduct (actor : option object) (resource : object) :
  canAdjustStock actor resource = canEditProduct actor resource.
Proof. reflexivity. Qed.

Lemma staff_branch_allowed (d p : value) :
  truthy (and_ d (boolean (strict_eq p d))) = true ↔ truthy d = true ∧ p = d.
Proof.
  unfold and_. destruct (truthy d) eqn:Hd; simpl.
  - rewrite strict_eq_true. split; [intros ->; done | intros [_ ->]; done].
  - rewrite Hd. split; [discriminate | intros [[=] _]].
Qed.

(** C2. The edit check and the stock adjustment check decide alike:
    no actor, deny; a manager, allow; a staff member, allow exactly when
    their [departmentId] is set (a truthy value, as the source tests it)
    and is the resource's [department_id]; any other role, deny. So a
    staff member without department is denied everywhere, and a resource
    without department is denied to every staff member. Deleting is
    allowed exactly to managers. *)
Theorem authorization_rule (actor : option object) (resource : object) :
  let allow := allowed (canEditProduct actor resource) in
  allowed (canAdjustStock actor resource) = allow
  ∧ (actor = None → allow = false)
  ∧ (∀ u, actor = Some u → get u "role" = str "manager" → allow = true)
  ∧ (∀ u, actor = Some u → get u "role" = str "staff" →
       (allow = true ↔
          truthy (get u "departmentId") = true
          ∧ get resource "department_id" = get u "departmentId")
       ∧ (truthy (get u "departmentId") = false → allow = false)
       ∧ (truthy (get resource "department_id") = false → allow = false))
  ∧ (∀ u, actor = Some u →
       get u "role" ≠ str "manager" → get u "role" ≠ str "staff" →
       allow = false)
  ∧ (canDeleteProduct actor = true ↔
       ∃ u, actor = Some u ∧ get u "role" = str "manager").
Proof.
  simpl. split; [reflexivity|]. split; [by intros ->|].
  split.
  { intros u -> Hr. simpl. by rewrite Hr. }
  split.
  { intros u -> Hr. simpl. rewrite Hr. simpl.
    change (strict_eq (str "staff") (str "manager")) with false.
    change (strict_eq (str "staff") (str "staff")) with true. simpl.
    unfold allowed.
    pose proof (staff_branch_allowed (get u "departmentId")
                  (get resource "department_id")) as Hiff.
    split; [exact Hiff|]. split.
    - intros Hd. apply not_true_is_false. intros [? _]%Hiff. congruence.
    - intros Hp. apply not_true_is_false. intros [? ?]%Hiff. congruence. }
  split.
  { intros u -> Hm Hs. simpl.
    apply strict_eq_false in Hm as ->. by apply strict_eq_false in Hs as ->. }
  unfold canDeleteProduct. rewrite strict_eq_true. split.
  - destruct actor as [u|]; [eauto | discriminate].
  - by intros (u & -> & ->).
Qed.

Lemma authorization_rule_witness :
  allowed (canEditProduct (Some Examples.staffD1) Examples.productD1) = true.
Proof.
  destruct (authorization_rule (Some Examples.staffD1) Examples.productD1)
    as (_ & _ & _ & Hstaff & _).
  destruct (Hstaff Examples.staffD1 eq_refl) as [Hiff _]; [by vm_compute|].
  apply Hiff. split; by vm_compute.
Defined.

(** ** The session store *)

Lemma get_insert_eq (o : object) (k : string) (v : value) :
  get (<[k := v]> o) k = v.
Proof. unfold get. by rewrite lookup_insert_eq. Qed.

Lemma get_insert_ne (o : object) (k k' : string) (v : value) :
  k ≠ k' → get (<[k := v]> o) k' = get o k'.
Proof. intros Hne. unfold get. by rewrite lookup_insert_ne. Qed.

Lemma get_delete_ne (o : object) (k k' : string) :
  k ≠ k' → get (delete k o) k' = get o k'.
Proof. intros Hne. unfold get. by rewrite lookup_delete_ne. Qed.

(** What the migration leaves of a legacy key and puts under the
    structured one, for the department id. *)
Lemma migrateUser_department_id (u : object) :
  truthy (get u "department_id") = true →
  (migrateUser u).1 !! "department_id" = None
  ∧ (migrateUser u).2 = true
  ∧ get (migrateUser u).1 "departmentId"
    = if truthy (get u "departmentId") then get u "departmentId"
      else get u "department_id".
Proof.
  intros Hl. unfold migrateUser. rewrite Hl.
  destruct (truthy (get u "departmentId")) eqn:Hs;
    destruct (truthy (get u "departmentName"));
    destruct (truthy (get u "department_name")); simpl;
    repeat split;
    rewrite ?lookup_delete_eq, ?(lookup_delete_ne _ "department_name"),
      ?lookup_delete_eq by done;
    rewrite ?(get_delete_ne _ "department_name"),
      ?(get_delete_ne _ "department_id"),
      ?(get_insert_ne _ "departmentName"), ?get_insert_eq by done;
    done.
Qed.

(** The same for the department name. *)
Lemma migrateUser_department_name (u : object) :
  truthy (get u "department_name") = true →
  (migrateUser u).1 !! "department_name" = None
  ∧ (migrateUser u).2 = true
  ∧ get (migrateUser u).1 "departmentName"
    = if truthy (get u "departmentName") then get u "departmentName"
      else get u "department_name".
Proof.
  intros Hl. unfold migrateUser. rewrite Hl.
  destruct (truthy (get u "departmentName")) eqn:Hs;
    destruct (truthy (get u "departmentId"));
    destruct (truthy (get u "department_id")); simpl;
    repeat split;
    rewrite ?lookup_delete_eq by done;
    rewrite ?(get_delete_ne _ "department_name"),
      ?(get_delete_ne _ "department_id"),
      ?get_insert_eq, ?(get_insert_ne _ "departmentId") by done;
    rewrite ?get_insert_eq; done.
Qed.

(** The hook only ever touches the user. *)
Lemma onRehydrateStorage_user (st : AuthState) (u : object) :
  user st = Some u →
  ∃ st', onRehydrateStorage (Some st) = Some st'
    ∧ user st' = Some (if (migrateUser u).2 then (migrateUser u).1 else u)
    ∧ accessToken st' = accessToken st
    ∧ refreshToken st' = refreshToken st
    ∧ isAuthenticated st' = isAuthenticated st
    ∧ isLoading st' = isLoading st.
Proof.
  intros Hu. unfold onRehydrateStorage. rewrite Hu.
  destruct (migrateUser u) as [fixedUser [|]]; simpl; eauto 10.
Qed.




(** A legacy key whose value is falsy ([null], the empty string) is
    not a department reference: the hook leaves such a user as it is. *)
Remark rehydrate_keeps_falsy_legacy (st : AuthState) (u : object) :
  user st = Some u →
  truthy (get u "department_id") = false →
  truthy (get u "department_name") = false →
  onRehydrateStorage (Some st) = Some st.
Proof.
  intros Hu Hid Hname. unfold onRehydrateStorage, migrateUser.
  rewrite Hu, Hid, Hname, !andb_false_r. done.
Qed.

(** C7, at a concrete state: on the initial, logged-out state
    [updateTokens] stores the token. *)
Lemma updateTokens_no_session_counterexample :
  user initialState = None
  ∧ updateTokens "t" None initialState ≠ initialState
  ∧ accessToken (updateTokens "t" None initialState) = Some "t".
Proof. repeat split. discriminate. Qed.

(** C7, amended. With no user logged in, [updateTokens] makes no check
    and cannot fail: it stores the access token, and the refresh token
    when a non-empty one is given; the user stays absent and
    [isAuthenticated] and [isLoading] keep their values. *)
Theorem updateTokens_no_session (st : AuthState) (access : string)
    (refresh : option string) :
  user st = None →
  let st' := updateTokens access refresh st in
  accessToken st' = Some access
  ∧ refreshToken st' = (if truthy_str refresh then refresh else refreshToken st)
  ∧ user st' = None
  ∧ isAuthenticated st' = isAuthenticated st
  ∧ isLoading st' = isLoading st.
Proof. intros Hu. simpl. by rewrite Hu. Qed.

Lemma updateTokens_no_session_witness :
  let st' := updateTokens "t" (Some "r") initialState in
  accessToken st' = Some "t"
  ∧ refreshToken st' = Some "r"
  ∧ user st' = None
  ∧ isAuthenticated st' = false
  ∧ isLoading st' = false.
Proof. apply (updateTokens_no_session initialState "t" (Some "r")). reflexivity. Defined.








(** ** The request pipeline *)

Section PipelineFacts.

Variable backend : Backend.

Lemma requestInterceptor_run (cfg : Config) (w : World) :
  requestInterceptor cfg w = (withCredential (store w) cfg, w).
Proof.
  unfold requestInterceptor, withCredential, getState, mbind, M_bind, mret, M_ret.
  by destruct (truthy_str (accessToken (store w))).
Qed.

Lemma notify_run (error : AxiosError) (w : World) :
  notify error w
  = (tt, {| store := store w; trace := trace w ++ notifications error |}).
Proof.
  destruct w as [st tr].
  unfold notify, notifications, emit, mret, M_ret; simpl.
  destruct (truthy_str (data_error error)).
  - destruct (bool_decide _); simpl; by rewrite ?app_nil_r.
  - destruct (negb _); simpl; by rewrite ?app_nil_r.
Qed.

Lemma count_app (p : Event → bool) (tr1 tr2 : list Event) :
  count p (tr1 ++ tr2) = (count p tr1 + count p tr2)%nat.
Proof. induction tr1 as [|e tr1 IH]; simpl; [done | rewrite IH; lia]. Qed.

(** A notification is a toast and nothing else. *)
Lemma count_notifications (p : Event → bool) (error : AxiosError) :
  (∀ text, p (Toast text) = false) → count p (notifications error) = 0%nat.
Proof.
  intros Hp. unfold notifications.
  destruct (truthy_str (data_error error)).
  - destruct (bool_decide _); simpl; by rewrite ?Hp.
  - destruct (truthy_str _); simpl; by rewrite ?Hp.
Qed.

Lemma count_settled (p : Event → bool) (r : Result) :
  (∀ text, p (Toast text) = false) → count p (settled r) = 0%nat.
Proof. destruct r; simpl; [done | apply count_notifications]. Qed.

Lemma withCredential_retry (st : AuthState) (cfg : Config) :
  _retry (withCredential st cfg) = _retry cfg.
Proof. unfold withCredential. by destruct (truthy_str _). Qed.

Lemma withCredential_url (st : AuthState) (cfg : Config) :
  url (withCredential st cfg) = url cfg.
Proof. unfold withCredential. by destruct (truthy_str _). Qed.

(** The request interceptor leaves the retry as the response interceptor
    built it: the header it would put is the one already there. *)
Lemma withCredential_retried (st : AuthState) (cfg : Config) (tok : string) :
  withCredential (updateTokens tok None st) (retried cfg tok) = retried cfg tok.
Proof.
  unfold withCredential; simpl. by destruct (negb (String.eqb tok "")).
Qed.

(** One level of [api], with the interceptors run. *)
Lemma api_step (fuel : nat) (cfg : Config) (w : World) :
  api backend (S fuel) cfg w
  = let cfg1 := withCredential (store w) cfg in
    let w1 := {| store := store w; trace := trace w ++ [Sent cfg1] |} in
    match respond backend (trace w) cfg1 with
    | Fulfilled data => (Some (Fulfilled data), w1)
    | Rejected error =>
        responseError backend (api backend fuel) cfg1 error w1
    end.
Proof.
  simpl. unfold mbind at 1. unfold M_bind. rewrite requestInterceptor_run.
  unfold mbind at 1. unfold M_bind, send. simpl.
  by destruct (respond backend (trace w) (withCredential (store w) cfg)).
Qed.

(** The response interceptor outside its refresh branch. *)
Lemma responseError_passes (reissue : Config → M (option Result))
    (cfg : Config) (error : AxiosError) (w : World) :
  recoverable (store w) cfg error = false →
  responseError backend reissue cfg error w
  = (Some (Rejected error),
     {| store := store w; trace := trace w ++ notifications error |}).
Proof.
  unfold recoverable. intros Hguard.
  unfold responseError, getState. unfold mbind at 1. unfold M_bind.
  rewrite Hguard. unfold mbind, M_bind. by rewrite notify_run.
Qed.

(** The response interceptor in its refresh branch. *)
Lemma responseError_refreshes (reissue : Config → M (option Result))
    (cfg : Config) (error : AxiosError) (w : World) (rt : string) :
  recoverable (store w) cfg error = true →
  refreshToken (store w) = Some rt →
  responseError backend reissue cfg error w
  = match refresh_endpoint backend (trace w) rt with
    | RefreshOk tok =>
        reissue (retried cfg tok)
          {| store := updateTokens tok None (store w);
             trace := trace w ++ [RefreshCalled rt; TokensUpdated tok] |}
    | RefreshFailed refreshError =>
        (Some (Rejected refreshError),
         {| store := logout (store w);
            trace := trace w ++ [RefreshCalled rt; LoggedOut; Redirected "/login";
                                 Toast "Session expired. Please login again."] |})
    | RefreshOkNoToken =>
        reissue (retried cfg "undefined")
          {| store := unsetAccessToken (store w);
             trace := trace w ++ [RefreshCalled rt; TokensUpdated "undefined"] |}
    end.
Proof.
  unfold recoverable. intros Hguard Hrt.
  unfold responseError, getState. unfold mbind at 1. unfold M_bind.
  rewrite Hguard, Hrt. simpl.
  unfold mbind at 1. unfold M_bind, postRefresh.
  destruct (refresh_endpoint backend (trace w) rt) as [tok | refreshError |];
    unfold mbind, M_bind, modifyStore, emit, mret, M_ret, retried; simpl;
    by rewrite <- ?app_assoc.
Qed.

(** A call that carries the retry mark settles in one level. *)
Lemma api_retry_settles (fuel : nat) (cfg : Config) (w : World) :
  _retry cfg = true →
  let cfg1 := withCredential (store w) cfg in
  let r := respond backend (trace w) cfg1 in
  api backend (S fuel) cfg w
  = (Some r, {| store := store w; trace := trace w ++ Sent cfg1 :: settled r |}).
Proof.
  intros Hretry. rewrite api_step. simpl.
  destruct (respond backend (trace w) (withCredential (store w) cfg))
    as [data | error] eqn:Hr; simpl; [done|].
  rewrite responseError_passes; simpl.
  - by rewrite <- app_assoc.
  - unfold recoverable. rewrite withCredential_retry, Hretry. simpl.
    by rewrite andb_false_r.
Qed.

(** Without a token in the store the request interceptor leaves the
    retry alone as well. *)
Lemma withCredential_unset (st : AuthState) (cfg : Config) (tok : string) :
  withCredential (unsetAccessToken st) (retried cfg tok) = retried cfg tok.
Proof. done. Qed.

Lemma retried_withCredential (st : AuthState) (cfg : Config) (tok : string) :
  retried (withCredential st cfg) tok = retried cfg tok.
Proof. unfold retried. by rewrite withCredential_url. Qed.

Lemma recoverable_true (st : AuthState) (cfg : Config) (error : AxiosError)
    (rt : string) :
  status error = Some 401 → _retry cfg = false →
  refreshToken st = Some rt → rt ≠ "" →
  recoverable st cfg error = true.
Proof.
  intros Hs Hr Ht Hne. unfold recoverable.
  rewrite Hs, Hr, Ht, bool_decide_eq_true_2 by done. simpl.
  apply negb_true_iff, String.eqb_neq, Hne.
Qed.

(** The whole run of a call whose first answer is a 401 and whose
    refresh succeeds. *)
Lemma api_refresh_succeeds (fuel : nat) (cfg : Config) (w : World)
    (error : AxiosError) (rt tok : string) :
  let cfg1 := withCredential (store w) cfg in
  let tr1 := trace w ++ [Sent cfg1] in
  let tr2 := tr1 ++ [RefreshCalled rt; TokensUpdated tok] in
  let r2 := respond backend tr2 (retried cfg tok) in
  _retry cfg = false →
  refreshToken (store w) = Some rt → rt ≠ "" →
  respond backend (trace w) cfg1 = Rejected error → status error = Some 401 →
  refresh_endpoint backend tr1 rt = RefreshOk tok →
  api backend (2 + fuel) cfg w
  = (Some r2,
     {| store := updateTokens tok None (store w);
        trace := trace w ++ [Sent cfg1; RefreshCalled rt; TokensUpdated tok;
                             Sent (retried cfg tok)] ++ settled r2 |}).
Proof.
  intros cfg1 tr1 tr2 r2 Hfirst Hrt Hne Hresp H401 Hrefresh.
  change (2 + fuel)%nat with (S (S fuel)).
  rewrite api_step. fold cfg1. cbv zeta. rewrite Hresp.
  rewrite (responseError_refreshes _ _ _ _ rt); cbn [store trace];
    [| |exact Hrt].
  - fold tr1. rewrite Hrefresh.
    rewrite api_retry_settles by done. cbn [store trace].
    unfold cfg1. rewrite retried_withCredential, withCredential_retried.
    fold cfg1 tr1 tr2 r2.
    unfold tr2, tr1. by rewrite <- !app_assoc.
  - apply (recoverable_true _ _ _ rt); try done.
    unfold cfg1. by rewrite withCredential_retry.
Qed.


(** C3. A call that is answered 401 for the first time while the store
    holds a refresh token makes one refresh call; when that succeeds the
    new access token is stored, the call is sent once more, with the new
    token in its header, and what that second request settles to is what
    the caller gets. Nothing else is sent, and nobody is logged out. *)
Theorem refresh_then_retry_once (fuel : nat) (cfg : Config) (w : World)
    (error : AxiosError) (rt tok : string) :
  let cfg1 := withCredential (store w) cfg in
  let tr1 := trace w ++ [Sent cfg1] in
  let tr2 := tr1 ++ [RefreshCalled rt; TokensUpdated tok] in
  let r2 := respond backend tr2 (retried cfg tok) in
  _retry cfg = false →
  refreshToken (store w) = Some rt → rt ≠ "" →
  respond backend (trace w) cfg1 = Rejected error → status error = Some 401 →
  refresh_endpoint backend tr1 rt = RefreshOk tok →
  ∃ w' events,
    api backend (2 + fuel) cfg w = (Some r2, w')
    ∧ trace w' = trace w ++ events
    ∧ events = [Sent cfg1; RefreshCalled rt; TokensUpdated tok;
                Sent (retried cfg tok)] ++ settled r2
    ∧ accessToken (store w') = Some tok
    ∧ Authorization (retried cfg tok) = Some (bearer tok)
    ∧ count isRefreshCalled events = 1%nat
    ∧ count isSent events = 2%nat
    ∧ count isLoggedOut events = 0%nat.
Proof.
  intros cfg1 tr1 tr2 r2 Hfirst Hrt Hne Hresp H401 Hrefresh.
  exists {| store := updateTokens tok None (store w);
            trace := trace w ++ [Sent cfg1; RefreshCalled rt; TokensUpdated tok;
                                 Sent (retried cfg tok)] ++ settled r2 |}.
  exists ([Sent cfg1; RefreshCalled rt; TokensUpdated tok;
           Sent (retried cfg tok)] ++ settled r2).
  split.
  { by apply (api_refresh_succeeds fuel cfg w error rt tok). }
  cbn [store trace count isRefreshCalled isSent isLoggedOut app].
  by rewrite !count_settled.
Qed.

(** C4. When the refresh call made after a 401 fails, the store is
    logged out (user and both tokens cleared, [isAuthenticated] false),
    once; the page is sent to [/login], the "session expired" toast is
    shown, and the caller gets the refresh error. The original call is
    not sent again. *)
Theorem refresh_failure_logs_out (fuel : nat) (cfg : Config) (w : World)
    (error refreshError : AxiosError) (rt : string) :
  let cfg1 := withCredential (store w) cfg in
  let tr1 := trace w ++ [Sent cfg1] in
  _retry cfg = false →
  refreshToken (store w) = Some rt → rt ≠ "" →
  respond backend (trace w) cfg1 = Rejected error → status error = Some 401 →
  refresh_endpoint backend tr1 rt = RefreshFailed refreshError →
  ∃ w' events,
    api backend (S fuel) cfg w = (Some (Rejected refreshError), w')
    ∧ user (store w') = None
    ∧ accessToken (store w') = None
    ∧ refreshToken (store w') = None
    ∧ isAuthenticated (store w') = false
    ∧ trace w' = trace w ++ events
    ∧ events = [Sent cfg1; RefreshCalled rt; LoggedOut; Redirected "/login";
                Toast "Session expired. Please login again."]
    ∧ count isLoggedOut events = 1%nat
    ∧ count isSent events = 1%nat
    ∧ count isRefreshCalled events = 1%nat.
Proof.
  intros cfg1 tr1 Hfirst Hrt Hne Hresp H401 Hrefresh.
  exists {| store := logout (store w);
            trace := tr1 ++ [RefreshCalled rt; LoggedOut; Redirected "/login";
                             Toast "Session expired. Please login again."] |}.
  exists [Sent cfg1; RefreshCalled rt; LoggedOut; Redirected "/login";
          Toast "Session expired. Please login again."].
  split.
  { rewrite api_step. fold cfg1. cbv zeta. rewrite Hresp.
    rewrite (responseError_refreshes _ _ _ _ rt); cbn [store trace];
      [| |exact Hrt].
    - fold tr1. by rewrite Hrefresh.
    - apply (recoverable_true _ _ _ rt); try done.
      unfold cfg1. by rewrite withCredential_retry. }
  cbn [store trace]. unfold tr1. rewrite <- app_assoc. done.
Qed.


(** C10. Called with an access token only (refresh token omitted or
    empty), [updateTokens] changes the [accessToken] field and nothing
    else. The refresh of the pipeline calls it that way, so after a
    repaired call the store still holds the refresh token it had, with
    the same user and the same [isAuthenticated]. *)
Theorem updateTokens_access_only (st : AuthState) (access : string)
    (refresh : option string) :
  refresh = None ∨ refresh = Some "" →
  updateTokens access refresh st
  = {| user := user st; accessToken := Some access;
       refreshToken := refreshToken st;
       isAuthenticated := isAuthenticated st; isLoading := isLoading st |}
  ∧ ∀ (fuel : nat) (cfg : Config) (tr : list Event) (error : AxiosError)
      (rt : string),
      let w := {| store := st; trace := tr |} in
      let cfg1 := withCredential st cfg in
      _retry cfg = false →
      refreshToken st = Some rt → rt ≠ "" →
      respond backend tr cfg1 = Rejected error → status error = Some 401 →
      refresh_endpoint backend (tr ++ [Sent cfg1]) rt = RefreshOk access →
      ∃ r w',
        api backend (2 + fuel) cfg w = (r, w')
        ∧ store w' = updateTokens access refresh st
        ∧ refreshToken (store w') = Some rt
        ∧ user (store w') = user st
        ∧ isAuthenticated (store w') = isAuthenticated st.
Proof.
  intros Hrefresh.
  assert (updateTokens access refresh st = updateTokens access None st) as Heq.
  { by destruct Hrefresh as [-> | ->]. }
  split; [by rewrite Heq|].
  intros fuel cfg tr error rt w cfg1 Hfirst Hrt Hne Hresp H401 Hok.
  eexists _, _. split.
  { by apply (api_refresh_succeeds fuel cfg w error rt access). }
  rewrite Heq. cbn [store]. done.
Qed.

End PipelineFacts.

(** ** The theorems at the sample data *)

Lemma refresh_then_retry_once_witness :
  ∃ w',
    call Examples.expiringBackend Examples.request Examples.world0
    = (Some (Fulfilled "ok"), w')
    ∧ accessToken (store w') = Some "access-2"
    ∧ count isRefreshCalled (trace w') = 1%nat
    ∧ count isSent (trace w') = 2%nat.
Proof.
  destruct (refresh_then_retry_once Examples.expiringBackend 0
              Examples.request Examples.world0 Examples.unauthorized
              "refresh-1" "access-2")
    as (w' & events & Hrun & Htrace & _ & Hacc & _ & Hrefresh & Hsent & _);
    [reflexivity | reflexivity | discriminate | by vm_compute | reflexivity
    | by vm_compute |].
  exists w'. split; [exact Hrun|]. rewrite Htrace. by repeat split.
Defined.

Lemma refresh_failure_logs_out_witness :
  ∃ w',
    call Examples.revokedBackend Examples.request Examples.world0
    = (Some (Rejected Examples.unauthorized), w')
    ∧ user (store w') = None
    ∧ accessToken (store w') = None
    ∧ refreshToken (store w') = None
    ∧ isAuthenticated (store w') = false
    ∧ count isLoggedOut (trace w') = 1%nat
    ∧ count isSent (trace w') = 1%nat.
Proof.
  destruct (refresh_failure_logs_out Examples.revokedBackend 1
              Examples.request Examples.world0 Examples.unauthorized
              Examples.unauthorized "refresh-1")
    as (w' & events & Hrun & Hu & Ha & Hr & Hi & Htrace & Hev & Hout & Hsent & _);
    [reflexivity | reflexivity | discriminate | by vm_compute | reflexivity
    | by vm_compute |].
  exists w'. split; [exact Hrun|]. rewrite Htrace. by repeat split.
Defined.



Lemma updateTokens_access_only_witness :
  updateTokens "access-2" None Examples.session
  = {| user := Some Examples.staffD1; accessToken := Some "access-2";
       refreshToken := Some "refresh-1"; isAuthenticated := true;
       isLoading := false |}
  ∧ ∃ r w',
      call Examples.expiringBackend Examples.request Examples.world0 = (r, w')
      ∧ refreshToken (store w') = Some "refresh-1".
Proof.
  destruct (updateTokens_access_only Examples.expiringBackend
              Examples.session "access-2" None (or_introl eq_refl))
    as [Hframe Hpipe].
  split; [exact Hframe|].
  destruct (Hpipe 0%nat Examples.request [] Examples.unauthorized "refresh-1")
    as (r & w' & Hrun & _ & Hrefresh & _);
    [reflexivity | reflexivity | discriminate | by vm_compute | reflexivity
    | by vm_compute |].
  exists r, w'. split; [exact Hrun | exact Hrefresh].
Defined.

(** * Further properties of the store *)

(** X1. Two profile updates in a row are one update with the two merged,
    the later one winning; this holds logged in and logged out. *)
Theorem updateUser_compose (a b : object) (st : AuthState) :
  updateUser b (updateUser a st) = updateUser (spread a b) st.
Proof.
  unfold updateUser. destruct (user st) as [cur|] eqn:Hcur; simpl.
  - unfold spread. by rewrite (assoc_L (∪)).
  - by rewrite Hcur.
Qed.

(** X2. [updateUser] does nothing while nobody is logged in. With a user
    it sets exactly the properties of the update and keeps every other
    property of the user; tokens and [isAuthenticated] are not touched. *)
Theorem updateUser_properties (upd : object) (st : AuthState) :
  (user st = None → updateUser upd st = st)
  ∧ (∀ cur, user st = Some cur →
       ∃ u', user (updateUser upd st) = Some u'
         ∧ (∀ k v, upd !! k = Some v → u' !! k = Some v)
         ∧ (∀ k, upd !! k = None → u' !! k = cur !! k)
         ∧ accessToken (updateUser upd st) = accessToken st
         ∧ refreshToken (updateUser upd st) = refreshToken st
         ∧ isAuthenticated (updateUser upd st) = isAuthenticated st).
Proof.
  unfold updateUser. split.
  - by intros ->.
  - intros cur ->. exists (spread cur upd). simpl. unfold spread.
    repeat split.
    + intros k v Hk. by apply lookup_union_Some_l.
    + intros k Hk. by apply lookup_union_r.
Qed.

Lemma updateUser_properties_witness :
  ∃ u', user (updateUser {[ "phone" := str "555" ]} Examples.session) = Some u'
    ∧ u' !! "phone" = Some (str "555")
    ∧ u' !! "role" = Some (str "staff").
Proof.
  destruct (updateUser_properties {[ "phone" := str "555" ]} Examples.session)
    as [_ Hin].
  destruct (Hin Examples.staffD1 eq_refl) as (u' & Hu' & Hnew & Hold & _).
  exists u'. split; [exact Hu'|]. split.
  - apply Hnew. by vm_compute.
  - rewrite Hold by (by vm_compute). by vm_compute.
Defined.



(** ** The rehydration hook, further *)

Import Pages.

(** The migration touches the four department keys only. *)
Lemma migrateUser_frame (u : object) (k : string) :
  k ≠ "departmentId" → k ≠ "departmentName" →
  k ≠ "department_id" → k ≠ "department_name" →
  (migrateUser u).1 !! k = u !! k.
Proof.
  intros H1 H2 H3 H4. unfold migrateUser.
  destruct (truthy (get u "departmentId")), (truthy (get u "department_id")),
    (truthy (get u "departmentName")), (truthy (get u "department_name"));
    simpl;
    by rewrite ?lookup_delete_ne, ?lookup_insert_ne by done.
Qed.

(** A legacy key with a falsy value is left where it is. *)
Lemma migrateUser_falsy_legacy (u : object) :
  (truthy (get u "department_id") = false →
   (migrateUser u).1 !! "department_id" = u !! "department_id")
  ∧ (truthy (get u "department_name") = false →
     (migrateUser u).1 !! "department_name" = u !! "department_name").
Proof.
  unfold migrateUser. split; intros ->; rewrite andb_false_r;
    destruct (truthy (get u "departmentId")), (truthy (get u "departmentName"));
    [destruct (truthy (get u "department_name"))
    |destruct (truthy (get u "department_name"))
    |destruct (truthy (get u "department_name"))
    |destruct (truthy (get u "department_name"))
    |destruct (truthy (get u "department_id"))
    |destruct (truthy (get u "department_id"))
    |destruct (truthy (get u "department_id"))
    |destruct (truthy (get u "department_id"))];
    simpl; by rewrite ?lookup_delete_ne, ?lookup_insert_ne by done.
Qed.

(** The structured keys after the migration: the value they had when it
    was truthy, else the legacy value when that is truthy, else
    unchanged. *)
Lemma migrateUser_structured (u : object) :
  get (migrateUser u).1 "departmentId"
  = (if truthy (get u "departmentId") then get u "departmentId"
     else if truthy (get u "department_id") then get u "department_id"
     else get u "departmentId")
  ∧ get (migrateUser u).1 "departmentName"
  = (if truthy (get u "departmentName") then get u "departmentName"
     else if truthy (get u "department_name") then get u "department_name"
     else get u "departmentName").
Proof.
  unfold migrateUser.
  destruct (truthy (get u "departmentId")), (truthy (get u "department_id")),
    (truthy (get u "departmentName")), (truthy (get u "department_name"));
    simpl; split;
    rewrite ?(get_delete_ne _ "department_name"),
      ?(get_delete_ne _ "department_id") by done;
    rewrite ?(get_insert_ne _ "departmentName" "departmentId"),
      ?get_insert_eq, ?(get_insert_ne _ "departmentId" "departmentName")
      by done;
    done.
Qed.

(** After the migration no legacy key holds a truthy value. *)
Lemma migrateUser_legacy_falsy (u : object) :
  truthy (get (migrateUser u).1 "department_id") = false
  ∧ truthy (get (migrateUser u).1 "department_name") = false.
Proof.
  split.
  - destruct (truthy (get u "department_id")) eqn:Hl.
    + destruct (migrateUser_department_id u Hl) as (Hgone & _).
      unfold get. by rewrite Hgone.
    + destruct (migrateUser_falsy_legacy u) as [Hkeep _].
      unfold get in *. by rewrite (Hkeep Hl).
  - destruct (truthy (get u "department_name")) eqn:Hl.
    + destruct (migrateUser_department_name u Hl) as (Hgone & _).
      unfold get. by rewrite Hgone.
    + destruct (migrateUser_falsy_legacy u) as [_ Hkeep].
      unfold get in *. by rewrite (Hkeep Hl).
Qed.

(** Without a truthy legacy value there is nothing to migrate. *)
Lemma migrateUser_nothing (u : object) :
  truthy (get u "department_id") = false →
  truthy (get u "department_name") = false →
  migrateUser u = (u, false).
Proof.
  intros Hid Hname. unfold migrateUser.
  by rewrite Hid, Hname, !andb_false_r.
Qed.

(** X4. Rehydrating twice is rehydrating once: after the hook has run
    there is nothing left for it to migrate. *)
Theorem rehydrate_idempotent (state : option AuthState) :
  onRehydrateStorage (onRehydrateStorage state) = onRehydrateStorage state.
Proof.
  destruct state as [st|]; [|done]. simpl.
  destruct (user st) as [u|] eqn:Hu; [|simpl; by rewrite Hu].
  destruct (migrateUser u) as [fixedUser needsMigration] eqn:Hm.
  destruct needsMigration; simpl.
  - destruct (migrateUser_legacy_falsy u) as [Hid Hname].
    rewrite Hm in Hid, Hname. simpl in Hid, Hname.
    by rewrite (migrateUser_nothing fixedUser Hid Hname).
  - by rewrite Hu, Hm.
Qed.

(** X5. The hook is confined to the department keys: every other
    property of the user is as persisted, and a structured key that
    already holds a value keeps it, whatever the legacy key says. *)
Theorem rehydrate_frame (st : AuthState) (u : object) :
  user st = Some u →
  ∃ st' u',
    onRehydrateStorage (Some st) = Some st'
    ∧ user st' = Some u'
    ∧ (∀ k, k ≠ "departmentId" → k ≠ "departmentName" →
            k ≠ "department_id" → k ≠ "department_name" →
            u' !! k = u !! k)
    ∧ (truthy (get u "departmentId") = true →
       get u' "departmentId" = get u "departmentId")
    ∧ (truthy (get u "departmentName") = true →
       get u' "departmentName" = get u "departmentName").
Proof.
  intros Hu.
  destruct (onRehydrateStorage_user st u Hu) as (st' & Hst' & Huser & _).
  exists st', (if (migrateUser u).2 then (migrateUser u).1 else u).
  split; [exact Hst'|]. split; [exact Huser|].
  destruct (migrateUser_structured u) as [Hid Hname].
  destruct (migrateUser u).2 eqn:Hflag; [|done].
  split; [|split].
  - intros k H1 H2 H3 H4. by apply migrateUser_frame.
  - intros Ht. by rewrite Hid, Ht.
  - intros Ht. by rewrite Hname, Ht.
Qed.

Lemma rehydrate_frame_witness :
  ∃ st' u',
    onRehydrateStorage (Some Examples.legacySession) = Some st'
    ∧ user st' = Some u'
    ∧ u' !! "role" = Some (str "staff")
    ∧ u' !! "name" = Some (str "Ada").
Proof.
  destruct (rehydrate_frame Examples.legacySession Examples.legacyStaffD1 eq_refl)
    as (st' & u' & Hst' & Hu' & Hframe & _).
  exists st', u'. split; [exact Hst'|]. split; [exact Hu'|].
  rewrite !Hframe by done. by vm_compute.
Defined.

Lemma get_mapUser (rawUser : object) :
  get (mapUser rawUser) "departmentId" = get rawUser "department_id"
  ∧ get (mapUser rawUser) "departmentName" = get rawUser "department_name"
  ∧ get (mapUser rawUser) "department_id" = get rawUser "department_id"
  ∧ get (mapUser rawUser) "department_name" = get rawUser "department_name".
Proof.
  unfold mapUser. repeat split;
    by rewrite ?get_insert_eq, ?(get_insert_ne _ "departmentName"),
         ?get_insert_eq, ?(get_insert_ne _ "departmentId") by done.
Qed.

(** X6. The user the login page stores carries the backend's
    [department_id] / [department_name] under [departmentId] /
    [departmentName], and a later rehydration keeps both values; what it
    removes are the legacy keys, so that none is left with a truthy
    value. The session stays authenticated with its tokens. *)
Theorem login_mapping_survives_rehydration (rawUser : object)
    (access refresh : string) :
  let st := login (mapUser rawUser) access refresh initialState in
  get (mapUser rawUser) "departmentId" = get rawUser "department_id"
  ∧ get (mapUser rawUser) "departmentName" = get rawUser "department_name"
  ∧ ∃ st' u',
      onRehydrateStorage (Some st) = Some st'
      ∧ user st' = Some u'
      ∧ get u' "departmentId" = get rawUser "department_id"
      ∧ get u' "departmentName" = get rawUser "department_name"
      ∧ truthy (get u' "department_id") = false
      ∧ truthy (get u' "department_name") = false
      ∧ isAuthenticated st' = true
      ∧ accessToken st' = Some access
      ∧ refreshToken st' = Some refresh.
Proof.
  intros st.
  destruct (get_mapUser rawUser) as (Hid & Hname & Hlid & Hlname).
  split; [exact Hid|]. split; [exact Hname|].
  destruct (onRehydrateStorage_user st (mapUser rawUser) eq_refl)
    as (st' & Hst' & Huser & Hacc & Href & Hauth & _).
  exists st', (if (migrateUser (mapUser rawUser)).2
               then (migrateUser (mapUser rawUser)).1 else mapUser rawUser).
  split; [exact Hst'|]. split; [exact Huser|].
  destruct (migrateUser_structured (mapUser rawUser)) as [Hsid Hsname].
  destruct (migrateUser_legacy_falsy (mapUser rawUser)) as [Hfid Hfname].
  rewrite Hid, Hlid in Hsid. rewrite Hname, Hlname in Hsname.
  destruct (migrateUser (mapUser rawUser)).2 eqn:Hflag.
  - rewrite Hsid, Hsname, Hfid, Hfname, Hacc, Href, Hauth.
    repeat split.
    + by destruct (truthy (get rawUser "department_id")).
    + by destruct (truthy (get rawUser "department_name")).
  - rewrite Hid, Hname, Hlid, Hlname, Hacc, Href, Hauth.
    assert (truthy (get rawUser "department_id") = false
            ∧ truthy (get rawUser "department_name") = false) as [Hf1 Hf2].
    { revert Hflag. unfold migrateUser. rewrite Hlid, Hlname.
      destruct (truthy (get rawUser "department_id")),
        (truthy (get rawUser "department_name")),
        (truthy (get (mapUser rawUser) "departmentId")),
        (truthy (get (mapUser rawUser) "departmentName")); simpl; done. }
    by rewrite Hf1, Hf2.
Qed.

(** X7. A staff member persisted in the legacy layout (department under
    [department_id], nothing under [departmentId]) is denied every
    product as long as the session is not migrated, and after
    rehydration may edit exactly the products of that department. *)
Theorem rehydrate_restores_staff_permission (st : AuthState) (u product : object) :
  user st = Some u →
  get u "role" = str "staff" →
  truthy (get u "departmentId") = false →
  truthy (get u "department_id") = true →
  allowed (canEditProduct (Some u) product) = false
  ∧ ∃ st' u',
      onRehydrateStorage (Some st) = Some st'
      ∧ user st' = Some u'
      ∧ (allowed (canEditProduct (Some u') product) = true
         ↔ get product "department_id" = get u "department_id").
Proof.
  intros Hu Hrole Hnew Hlegacy. split.
  { unfold canEditProduct, allowed. rewrite Hrole.
    change (strict_eq (str "staff") (str "manager")) with false.
    change (strict_eq (str "staff") (str "staff")) with true. simpl.
    apply not_true_is_false. intros [Ht _]%staff_branch_allowed. congruence. }
  destruct (onRehydrateStorage_user st u Hu) as (st' & Hst' & Huser & _).
  destruct (migrateUser_department_id u Hlegacy) as (_ & Hflag & Hval).
  rewrite Hflag in Huser. rewrite Hnew in Hval.
  exists st', (migrateUser u).1.
  split; [exact Hst'|]. split; [exact Huser|].
  assert (get (migrateUser u).1 "role" = str "staff") as Hrole'.
  { unfold get in *. by rewrite migrateUser_frame. }
  unfold canEditProduct, allowed. rewrite Hrole'.
  change (strict_eq (str "staff") (str "manager")) with false.
  change (strict_eq (str "staff") (str "staff")) with true. simpl.
  rewrite staff_branch_allowed, Hval, Hlegacy. split; [by intros [_ ?] | done].
Qed.

Lemma rehydrate_restores_staff_permission_witness :
  allowed (canEditProduct (Some Examples.legacyStaffD1) Examples.productD1) = false
  ∧ ∃ st' u',
      onRehydrateStorage (Some Examples.legacySession) = Some st'
      ∧ user st' = Some u'
      ∧ allowed (canEditProduct (Some u') Examples.productD1) = true.
Proof.
  destruct (rehydrate_restores_staff_permission Examples.legacySession
              Examples.legacyStaffD1 Examples.productD1)
    as (Hbefore & st' & u' & Hst' & Hu' & Hafter);
    [reflexivity | by vm_compute | by vm_compute | by vm_compute |].
  split; [exact Hbefore|]. exists st', u'.
  split; [exact Hst'|]. split; [exact Hu'|]. apply Hafter. by vm_compute.
Defined.

(** * Further properties of the request pipeline *)

Section PipelineBounds.

Variable backend : Backend.

(** The four ways a call can go, with the store and the events of each. *)
Lemma api_outcomes (fuel : nat) (cfg : Config) (w : World) :
  let cfg1 := withCredential (store w) cfg in
  ∃ r w' events,
    api backend (2 + fuel) cfg w = (Some r, w')
    ∧ trace w' = trace w ++ events
    ∧ ((∃ data, respond backend (trace w) cfg1 = Fulfilled data
          ∧ r = Fulfilled data
          ∧ store w' = store w ∧ events = [Sent cfg1])
       ∨ (∃ error, respond backend (trace w) cfg1 = Rejected error
          ∧ recoverable (store w) cfg1 error = false
          ∧ r = Rejected error
          ∧ store w' = store w ∧ events = Sent cfg1 :: notifications error)
       ∨ (∃ error rt refreshError,
            respond backend (trace w) cfg1 = Rejected error
            ∧ recoverable (store w) cfg1 error = true
            ∧ refreshToken (store w) = Some rt
            ∧ r = Rejected refreshError
            ∧ store w' = logout (store w)
            ∧ events = [Sent cfg1; RefreshCalled rt; LoggedOut;
                        Redirected "/login";
                        Toast "Session expired. Please login again."])
       ∨ (∃ error rt tok,
            respond backend (trace w) cfg1 = Rejected error
            ∧ recoverable (store w) cfg1 error = true
            ∧ refreshToken (store w) = Some rt
            ∧ (store w' = updateTokens tok None (store w)
               ∨ (refresh_endpoint backend (trace w ++ [Sent cfg1]) rt
                  = RefreshOkNoToken
                  ∧ store w' = unsetAccessToken (store w)))
            ∧ events = [Sent cfg1; RefreshCalled rt; TokensUpdated tok;
                        Sent (retried cfg tok)] ++ settled r)).
Proof.
  intros cfg1. change (2 + fuel)%nat with (S (S fuel)).
  rewrite api_step. fold cfg1. cbv zeta.
  destruct (respond backend (trace w) cfg1) as [data | error] eqn:Hresp.
  { eexists _, _, [Sent cfg1]. split; [reflexivity|]. split; [done|].
    left. by exists data. }
  set (w1 := {| store := store w; trace := trace w ++ [Sent cfg1] |}).
  destruct (recoverable (store w) cfg1 error) eqn:Hguard.
  - assert (∃ rt, refreshToken (store w) = Some rt) as [rt Hrt].
    { unfold recoverable in Hguard.
      apply andb_true_iff in Hguard as [_ Ht].
      apply truthy_str_Some in Ht as (rt & Hrt & _). eauto. }
    rewrite (responseError_refreshes _ _ _ _ _ rt) by done.
    destruct (refresh_endpoint backend (trace w1) rt)
      as [tok | refreshError |] eqn:Hrefresh.
    + rewrite api_retry_settles by done. cbn [store trace].
      unfold cfg1. rewrite retried_withCredential, withCredential_retried.
      fold cfg1.
      set (r2 := respond backend _ (retried cfg tok)).
      exists r2, {| store := updateTokens tok None (store w);
                    trace := trace w ++ [Sent cfg1; RefreshCalled rt;
                               TokensUpdated tok; Sent (retried cfg tok)]
                               ++ settled r2 |}.
      eexists. split; [|split; [reflexivity|]].
      * unfold w1. cbn [store trace]. by rewrite <- !app_assoc.
      * do 3 right. exists error, rt, tok. repeat split; try done. by left.
    + exists (Rejected refreshError),
        {| store := logout (store w);
           trace := trace w1 ++ [RefreshCalled rt; LoggedOut; Redirected "/login";
                                 Toast "Session expired. Please login again."] |},
        [Sent cfg1; RefreshCalled rt; LoggedOut; Redirected "/login";
         Toast "Session expired. Please login again."].
      split; [reflexivity|]. unfold w1. cbn [store trace].
      split; [by rewrite <- app_assoc|].
      do 2 right; left. by exists error, rt, refreshError.
    + rewrite api_retry_settles by done. cbn [store trace].
      unfold cfg1. rewrite retried_withCredential, withCredential_unset.
      fold cfg1.
      set (r2 := respond backend _ (retried cfg "undefined")).
      exists r2, {| store := unsetAccessToken (store w);
                    trace := trace w ++ [Sent cfg1; RefreshCalled rt;
                               TokensUpdated "undefined";
                               Sent (retried cfg "undefined")]
                               ++ settled r2 |}.
      eexists. split; [|split; [reflexivity|]].
      * unfold w1. cbn [store trace]. by rewrite <- !app_assoc.
      * do 3 right. exists error, rt, "undefined".
        repeat split; try done. right. by split.
  - rewrite responseError_passes by done.
    exists (Rejected error),
      {| store := store w1; trace := trace w1 ++ notifications error |},
      (Sent cfg1 :: notifications error).
    split; [reflexivity|]. unfold w1. cbn [store trace].
    split; [by rewrite <- app_assoc|].
    right; left. by exists error.
Qed.

(** X8. Whatever the backend does, a call sends one request first, and
    that request carries [Bearer <accessToken>] of the store when the
    store holds a non-empty access token; without one the request goes
    out as the caller configured it. *)
Theorem first_request_carries_token (fuel : nat) (cfg : Config) (w : World) :
  ∃ r w' rest,
    api backend (2 + fuel) cfg w = (Some r, w')
    ∧ trace w' = trace w ++ Sent (withCredential (store w) cfg) :: rest
    ∧ url (withCredential (store w) cfg) = url cfg
    ∧ (∀ token, accessToken (store w) = Some token → token ≠ "" →
         Authorization (withCredential (store w) cfg) = Some (bearer token))
    ∧ (truthy_str (accessToken (store w)) = false →
         withCredential (store w) cfg = cfg).
Proof.
  destruct (api_outcomes fuel cfg w) as (r & w' & events & Hrun & Htrace & Hcase).
  assert (∃ rest, events = Sent (withCredential (store w) cfg) :: rest)
    as [rest ->].
  { destruct Hcase as [(? & _ & _ & _ & ->) | [(? & _ & _ & _ & _ & ->)
      | [(? & ? & ? & _ & _ & _ & _ & _ & ->)
      | (? & ? & ? & _ & _ & _ & _ & ->)]]]; eauto. }
  exists r, w', rest. split; [exact Hrun|]. split; [exact Htrace|].
  split; [apply withCredential_url|]. split.
  - intros token Htok Hne. unfold withCredential. rewrite Htok. simpl.
    by apply String.eqb_neq in Hne as ->.
  - intros Hnone. unfold withCredential. by rewrite Hnone.
Qed.


(** X10. An error that is not a 401 (a validation error, a server
    error, no response at all) is never repaired: one request, no
    refresh call, the store as it was, and the caller gets the very
    error, after the notification. *)
Theorem other_errors_pass_through (fuel : nat) (cfg : Config) (w : World)
    (error : AxiosError) :
  respond backend (trace w) (withCredential (store w) cfg) = Rejected error →
  status error ≠ Some 401 →
  api backend (S fuel) cfg w
  = (Some (Rejected error),
     {| store := store w;
        trace := trace w ++ Sent (withCredential (store w) cfg)
                              :: notifications error |}).
Proof.
  intros Hresp Hstatus. rewrite api_step. cbv zeta. rewrite Hresp.
  rewrite responseError_passes; cbn [store trace].
  - by rewrite <- app_assoc.
  - unfold recoverable. by rewrite bool_decide_eq_false_2.
Qed.

(** A call that succeeds at once is handed through: the response is
    the result, the store is untouched and nothing is shown. *)
Lemma success_passes_through (fuel : nat) (cfg : Config) (w : World)
    (data : string) :
  respond backend (trace w) (withCredential (store w) cfg) = Fulfilled data →
  api backend (S fuel) cfg w
  = (Some (Fulfilled data),
     {| store := store w;
        trace := trace w ++ [Sent (withCredential (store w) cfg)] |}).
Proof. intros Hresp. rewrite api_step. cbv zeta. by rewrite Hresp. Qed.


End PipelineBounds.

Lemma other_errors_pass_through_witness :
  ∃ w',
    call {| respond := λ _ _, Rejected {| status := Some 500;
                                           data_error := Some "Server error";
                                           message := "Request failed" |};
            refresh_endpoint := λ _ _, RefreshOk "access-2" |}
         Examples.request Examples.world0
    = (Some (Rejected {| status := Some 500; data_error := Some "Server error";
                         message := "Request failed" |}), w')
    ∧ store w' = Examples.session
    ∧ count isRefreshCalled (trace w') = 0%nat.
Proof.
  eexists. split; [|split].
  - apply (other_errors_pass_through _ 1 Examples.request Examples.world0);
      [reflexivity | discriminate].
  - reflexivity.
  - reflexivity.
Defined.


(** A 2xx refresh reply without [accessToken] is outside that: the store
    keeps its user and [isAuthenticated] and loses the access token, the
    retry goes out with "Bearer undefined", and nobody is logged out. *)
Example call_without_token :
  let run := call Examples.tokenlessBackend Examples.request Examples.world0 in
  run.1 = Some (Rejected Examples.unauthorized)
  ∧ user (store run.2) = Some Examples.staffD1
  ∧ isAuthenticated (store run.2) = true
  ∧ accessToken (store run.2) = None
  ∧ ¬ session_invariant (store run.2)
  ∧ trace run.2 !! 3%nat
    = Some (Sent {| url := "/inventory/update";
                    Authorization := Some "Bearer undefined";
                    _retry := true |})
  ∧ count isLoggedOut (trace run.2) = 0%nat.
Proof. repeat split; vm_compute; discriminate. Qed.

(** * Properties of the pages *)

(** X12. The generic error branch shows at most one toast and leaves
    the store alone. The text is [data.error] when the response has
    one, else the message of the error; the two errors the pages handle
    themselves are never shown, whatever the message. *)
Theorem notify_shows_one_reason (error : AxiosError) (w : World) :
  ∃ shown,
    notify error w = (tt, {| store := store w; trace := trace w ++ shown |})
    ∧ (length shown ≤ 1)%nat
    ∧ (∀ e, data_error error = Some e → e ≠ "" →
         shown = if bool_decide (e ∈ silentErrors) then [] else [Toast e])
    ∧ (truthy_str (data_error error) = false →
         shown = if String.eqb (message error) "" then []
                 else [Toast (message error)])
    ∧ (data_error error = Some "Invalid credentials"
       ∨ data_error error = Some "User not found" → shown = []).
Proof.
  exists (notifications error). split; [apply notify_run|].
  unfold notifications. split; [|split; [|split]].
  - destruct (truthy_str (data_error error)).
    + destruct (bool_decide _); simpl; lia.
    + destruct (truthy_str _); simpl; lia.
  - intros e He Hne. rewrite He. simpl.
    by apply String.eqb_neq in Hne as ->.
  - intros ->. simpl. by destruct (String.eqb (message error) "").
  - by intros [-> | ->].
Qed.



(** X17. Whoever may delete products may edit and adjust every product;
    a staff member may never delete. *)
Theorem delete_implies_edit (actor : option object) (product : object) :
  (canDeleteProduct actor = true →
     allowed (canEditProduct actor product) = true
     ∧ allowed (canAdjustStock actor product) = true)
  ∧ (roleOf actor = str "staff" → canDeleteProduct actor = false).
Proof.
  unfold canDeleteProduct, canAdjustStock, canEditProduct, roleOf.
  split.
  - intros Hdel. destruct actor as [u|]; [|done]. by rewrite Hdel.
  - by intros ->.
Qed.

Lemma delete_implies_edit_witness :
  allowed (canEditProduct (Some Examples.managerUser) Examples.productD1) = true.
Proof.
  destruct (delete_implies_edit (Some Examples.managerUser) Examples.productD1)
    as [Hdel _].
  by apply Hdel.
Defined.

(** X18. The action cell of the inventory table offers the adjustment
    exactly when [canAdjustStock] allows it. Otherwise it reads
    "Unassigned - Admin Only" exactly for a product without department,
    "Different Dept." only to a staff member whose [departmentId] is not
    the product's department, and "No Access" only when the actor is
    neither a manager nor a staff member. *)
Theorem action_cell_labels (actor : option object) (product : object) :
  (actionCell actor product = "Adjust Stock"
     ↔ allowed (canAdjustStock actor product) = true)
  ∧ (actionCell actor product = "Unassigned - Admin Only"
     ↔ allowed (canAdjustStock actor product) = false
       ∧ truthy (get product "department_id") = false)
  ∧ (actionCell actor product = "Different Dept." →
       ∃ u, actor = Some u ∧ get u "role" = str "staff"
         ∧ get product "department_id" ≠ get u "departmentId")
  ∧ (actionCell actor product = "No Access" →
       roleOf actor ≠ str "manager" ∧ roleOf actor ≠ str "staff").
Proof.
  unfold actionCell, deniedLabel.
  destruct (allowed (canAdjustStock actor product)) eqn:Hallow.
  { repeat split; try done. by intros [? _]. }
  destruct (truthy (get product "department_id")) eqn:Hdept.
  - destruct (strict_eq (roleOf actor) (str "staff")) eqn:Hstaff.
    + repeat split; try done; try by intros [_ ?].
      intros _. apply strict_eq_true in Hstaff.
      destruct actor as [u|]; [|done]. simpl in Hstaff.
      exists u. repeat split; [exact Hstaff|].
      intros Heq. revert Hallow. unfold canAdjustStock, allowed.
      rewrite Hstaff.
      change (strict_eq (str "staff") (str "manager")) with false.
      change (strict_eq (str "staff") (str "staff")) with true. simpl.
      assert (truthy (and_ (get u "departmentId")
                (boolean (strict_eq (get product "department_id")
                            (get u "departmentId")))) = true) as ->; [|done].
      apply staff_branch_allowed. split; [by rewrite <- Heq | exact Heq].
    + repeat split; try done; try by intros [_ ?].
      * intros Hm. destruct actor as [u|]; [|done]. simpl in Hm.
        revert Hallow. unfold canAdjustStock, allowed. by rewrite Hm.
      * by apply strict_eq_false.
  - repeat split; done.
Qed.

Lemma action_cell_labels_witness :
  ∃ u, Some Examples.staffD1 = Some u ∧ get u "role" = str "staff"
    ∧ get (<["department_id" := str "D2"]> Examples.productD1) "department_id"
      ≠ get u "departmentId".
Proof.
  destruct (action_cell_labels (Some Examples.staffD1)
              (<["department_id" := str "D2"]> Examples.productD1))
    as (_ & _ & Hdiff & _).
  apply Hdiff. by vm_compute.
Defined.

(** X14. Logging out from the sidebar always ends with the store
    cleared and one success toast, whatever the backend answers (and
    also when the pipeline had to log out itself on the way). The
    backend is told only when the store holds a refresh token; without
    one nothing is sent. Afterwards every protected route leads to
    [/login]. *)
Theorem handleLogout_always_logs_out (backend : Backend) (ui : Ui)
    (requiredRole : option string) :
  let ui' := handleLogout backend ui in
  store (world ui') = logout (store (world ui))
  ∧ user (store (world ui')) = None
  ∧ accessToken (store (world ui')) = None
  ∧ refreshToken (store (world ui')) = None
  ∧ isAuthenticated (store (world ui')) = false
  ∧ successes ui' = successes ui ++ ["Logged out successfully"]
  ∧ ProtectedRoute (store (world ui')) requiredRole = Navigate "/login"
  ∧ (truthy_str (refreshToken (store (world ui))) = false →
       trace (world ui') = trace (world ui))
  ∧ (truthy_str (refreshToken (store (world ui))) = true →
       ∃ rest, trace (world ui')
               = trace (world ui)
                 ++ Sent (withCredential (store (world ui)) logoutRequest) :: rest).
Proof.
  unfold handleLogout.
  destruct (truthy_str (refreshToken (store (world ui)))) eqn:Hrt.
  - destruct (api_outcomes backend 0 logoutRequest (world ui))
      as (r & w' & events & Hrun & Htrace & Hcase).
    change (api backend (2 + 0) logoutRequest (world ui))
      with (call backend logoutRequest (world ui)) in Hrun.
    rewrite Hrun.
    assert (∃ rest, events
              = Sent (withCredential (store (world ui)) logoutRequest) :: rest)
      as [rest ->].
    { destruct Hcase as [(? & _ & _ & _ & ->) | [(? & _ & _ & _ & _ & ->)
        | [(? & ? & ? & _ & _ & _ & _ & _ & ->)
        | (? & ? & ? & _ & _ & _ & _ & ->)]]]; eauto. }
    destruct r as [data | error]; simpl; repeat split; try done; eauto.
  - simpl. repeat split; done.
Qed.

(** X15. A failed login while nobody is logged in: the pipeline hands
    the error through without touching the store, and the page then
    shows it. For "Invalid credentials" and "User not found" that is the
    only toast; any other error text of the backend is shown twice, once
    by the pipeline and once by the page. *)
Theorem login_failure_toasts (backend : Backend) (w : World)
    (error : AxiosError) (e : string) :
  truthy_str (refreshToken (store w)) = false →
  respond backend (trace w) (withCredential (store w) loginRequest)
  = Rejected error →
  data_error error = Some e → e ≠ "" →
  let run := call backend loginRequest w in
  let w2 := (onSubmitCatch error run.2).2 in
  run.1 = Some (Rejected error)
  ∧ store w2 = store w
  ∧ trace w2
    = trace w ++ Sent (withCredential (store w) loginRequest)
        :: (if bool_decide (e ∈ silentErrors) then [Toast e]
            else [Toast e; Toast e]).
Proof.
  intros Hrt Hresp He Hne. cbv zeta.
  destruct (api_outcomes backend 0 loginRequest w)
    as (r & w' & events & Hrun & Htrace & Hcase).
  change (api backend (2 + 0) loginRequest w)
    with (call backend loginRequest w) in Hrun.
  rewrite Hrun. cbn [fst snd].
  assert (recoverable (store w) (withCredential (store w) loginRequest) error
          = false) as Hguard.
  { unfold recoverable. rewrite Hrt. apply andb_false_r. }
  assert (r = Rejected error ∧ store w' = store w
          ∧ events = Sent (withCredential (store w) loginRequest)
                      :: notifications error) as (-> & Hstore & ->).
  { destruct Hcase as [(? & Hr & _) | [(? & Hr & _ & -> & -> & ->)
      | [(? & ? & ? & Hr & Hg & _) | (? & ? & ? & Hr & Hg & _)]]];
      rewrite Hresp in Hr; try discriminate; injection Hr as <-;
      try done; congruence. }
  clear Hcase Hrun. split; [done|].
  apply String.eqb_neq in Hne.
  unfold onSubmitCatch, emit. rewrite He. simpl. rewrite Hne. simpl.
  split; [exact Hstore|]. rewrite Htrace, <- app_assoc. simpl.
  unfold notifications. rewrite He. simpl. rewrite Hne. simpl.
  by destruct (bool_decide (e ∈ silentErrors)).
Qed.

Lemma login_failure_toasts_witness :
  let backend := {| respond := λ _ _,
                      Rejected {| status := Some 403;
                                  data_error := Some "Account disabled";
                                  message := "Request failed" |};
                    refresh_endpoint := λ _ _, RefreshOk "t" |} in
  let w := {| store := initialState; trace := [] |} in
  let run := call backend loginRequest w in
  trace (onSubmitCatch {| status := Some 403;
                          data_error := Some "Account disabled";
                          message := "Request failed" |} run.2).2
  = [Sent loginRequest; Toast "Account disabled"; Toast "Account disabled"].
Proof.
  cbv zeta.
  eapply (login_failure_toasts _ {| store := initialState; trace := [] |} _
            "Account disabled"); [reflexivity | reflexivity | reflexivity
                                 | discriminate].
Defined.

(** X16. The message the inventory page shows for a failed adjustment is
    never empty; a network failure is reported as such whatever else the
    error carries, and a rejected request (400) is reported with the
    backend's text when there is one. *)
Theorem adjust_error_message (code : option string) (error : AxiosError) :
  adjustErrorMessage code error ≠ ""
  ∧ (code = Some "ERR_NETWORK" →
       adjustErrorMessage code error
       = "Network error - Backend server is not running")
  ∧ (∀ e, code ≠ Some "ERR_NETWORK" → status error = Some 400 →
          data_error error = Some e → e ≠ "" →
          adjustErrorMessage code error = e).
Proof.
  unfold adjustErrorMessage. split; [|split].
  - destruct (bool_decide (code = _)); [done|].
    destruct (bool_decide (status error = Some 401)); [done|].
    destruct (truthy_str (data_error error)) eqn:Ht.
    + apply truthy_str_Some in Ht as (s & -> & Hs).
      by destruct (bool_decide _).
    + by destruct (bool_decide _).
  - intros ->. done.
  - intros e Hcode Hstatus He Hne.
    rewrite bool_decide_eq_false_2 by done.
    rewrite Hstatus, He. simpl. by apply String.eqb_neq in Hne as ->.
Qed.

Lemma adjust_error_message_witness :
  adjustErrorMessage None {| status := Some 400;
                             data_error := Some "Insufficient stock";
                             message := "Request failed" |}
  = "Insufficient stock".
Proof.
  destruct (adjust_error_message None
              {| status := Some 400; data_error := Some "Insufficient stock";
                 message := "Request failed" |}) as (_ & _ & Htext).
  by apply Htext.
Defined.

(** ** The stock preview, further *)

(** X19. As long as the stock and the quantity together stay within
    [2 ^ 53], where the numbers of JavaScript are exact, the preview
    moves the stock by exactly the quantity entered, up or down, and by
    nothing while the field is empty or zero, which is how the dialog
    opens; the result is never clamped. *)
Theorem preview_moves_by_quantity (changeType : ChangeType)
    (quantityChanged : option Z) (quantity_in_stock : Z) :
  Z.abs quantity_in_stock + Z.abs (orZero quantityChanged) <= exact_bound →
  (∃ n, newStock changeType quantityChanged quantity_in_stock = Int n
        ∧ Z.abs (n - quantity_in_stock) = Z.abs (orZero quantityChanged))
  ∧ newStock changeType None quantity_in_stock = Int quantity_in_stock
  ∧ newStock changeType (Some 0) quantity_in_stock = Int quantity_in_stock.
Proof.
  intros Hbound. rewrite !newStock_fl. split; [|split].
  - destruct (_ || _); rewrite fl_exact by lia; eexists; split; try done; lia.
  - simpl. destruct (_ || _); rewrite fl_exact by lia; f_equal; lia.
  - simpl. destruct (_ || _); rewrite fl_exact by lia; f_equal; lia.
Qed.

Lemma preview_moves_by_quantity_witness :
  ∃ n, newStock sale (Some 15) 10 = Int n ∧ Z.abs (n - 10) = Z.abs 15.
Proof.
  destruct (preview_moves_by_quantity sale (Some 15) 10) as [Hmove _];
    [by vm_compute | exact Hmove].
Defined.

(** X20. For a positive quantity, and as long as the stock and the
    quantity together stay within [2 ^ 53], the sign of the change line
    tells the direction of the new stock for a restock, a return and a
    sale. For an adjustment it does so exactly when the quantity exceeds
    the current stock. *)
Theorem preview_sign_agreement (changeType : ChangeType) (q s : Z) :
  0 < q →
  Z.abs s + q <= exact_bound →
  ∃ n, newStock changeType (Some q) s = Int n
    ∧ ((changeSign changeType = "-" ↔ n < s)
       ↔ (changeType = adjustment → s < q)).
Proof.
  intros Hq Hbound. rewrite newStock_fl. unfold changeSign, exceeds.
  destruct changeType; simpl.
  - rewrite fl_exact by lia. eexists. split; [done|].
    split; [done|]. intros _. split; [done | lia].
  - rewrite fl_exact by lia. eexists. split; [done|].
    split; [done|]. intros _. split; [lia | done].
  - destruct (s <? q) eqn:Hlt; simpl; rewrite fl_exact by lia;
      eexists; (split; [done|]).
    + apply Z.ltb_lt in Hlt. split; [done|]. intros _. split; [lia | done].
    + apply Z.ltb_ge in Hlt. split.
      * intros [Hsign _]. specialize (Hsign eq_refl). lia.
      * intros Hlt'. specialize (Hlt' eq_refl). lia.
  - rewrite fl_exact by lia. eexists. split; [done|].
    split; [done|]. intros _. split; [done | lia].
Qed.

Lemma preview_sign_agreement_witness :
  ∃ n, newStock sale (Some 3) 10 = Int n
    ∧ ((changeSign sale = "-" ↔ n < 10) ↔ (sale = adjustment → 10 < 3)).
Proof. apply (preview_sign_agreement sale 3 10); by vm_compute. Defined.

(** ** Stock levels *)

(** X21. With a threshold that is not negative, a product the products
    page marks "Out of Stock" is marked "Low Stock" as well; with the
    low-stock flag as the products page computes it, the status of the
    inventory page is "In Stock" exactly when the products page shows no
    badge; and a product without stock figures counts as low and out of
    stock. *)
Theorem stock_badges_agree (quantity_in_stock minimum_stock_level : option Z) :
  0 <= orZero minimum_stock_level →
  let low := is_low_stock quantity_in_stock minimum_stock_level in
  ("Out of Stock" ∈ stockBadges quantity_in_stock low →
     "Low Stock" ∈ stockBadges quantity_in_stock low)
  ∧ (stockStatus quantity_in_stock low = "In Stock"
     ↔ stockBadges quantity_in_stock low = [])
  ∧ stockBadges None (is_low_stock None None) = ["Low Stock"; "Out of Stock"].
Proof.
  intros Hmin. cbv zeta. unfold is_low_stock, stockBadges, stockStatus.
  destruct (orZero quantity_in_stock <=? orZero minimum_stock_level) eqn:Hlow.
  - split; [|split; [|done]].
    + intros _. apply list_elem_of_here.
    + destruct (bool_decide _), (orZero quantity_in_stock =? 0); done.
  - apply Z.leb_gt in Hlow.
    assert ((orZero quantity_in_stock =? 0) = false) as -> by lia.
    rewrite bool_decide_eq_false_2.
    + split; [|done]. by intros ?%elem_of_nil.
    + intros ->. simpl in Hlow. lia.
Qed.

Lemma stock_badges_agree_witness :
  stockStatus (Some 12) (is_low_stock (Some 12) (Some 5)) = "In Stock"
  ↔ stockBadges (Some 12) (is_low_stock (Some 12) (Some 5)) = [].
Proof.
  destruct (stock_badges_agree (Some 12) (Some 5)) as (_ & Hiff & _);
    [simpl; lia | exact Hiff].
Defined.

(** ** The reports page *)





(** X23. The reports page does not depend on the migration: it requests
    the same thing, or shows the same error, for a persisted user before
    and after the rehydration hook has run. *)
Theorem report_stats_after_rehydration (API_BASE_URL : string)
    (st : AuthState) (u : object) :
  user st = Some u →
  ∃ st',
    onRehydrateStorage (Some st) = Some st'
    ∧ fetchReportStats API_BASE_URL (accessToken st') (user st')
      = fetchReportStats API_BASE_URL (accessToken st) (user st).
Proof.
  intros Hu.
  destruct (onRehydrateStorage_user st u Hu) as (st' & Hst' & Huser & Hacc & _).
  exists st'. split; [exact Hst'|]. rewrite Huser, Hacc, Hu.
  destruct (migrateUser u).2 eqn:Hflag; [|done].
  unfold fetchReportStats.
  assert (get (migrateUser u).1 "role" = get u "role") as ->.
  { unfold get. by rewrite migrateUser_frame. }
  assert (or_ (get (migrateUser u).1 "departmentId")
              (get (migrateUser u).1 "department_id")
          = or_ (get u "departmentId") (get u "department_id")) as ->; [|done].
  destruct (migrateUser_structured u) as [-> _]. unfold or_.
  destruct (truthy (get u "departmentId")) eqn:Hnew; [by rewrite Hnew|].
  destruct (truthy (get u "department_id")) eqn:Hold; [by rewrite Hold|].
  rewrite Hnew. destruct (migrateUser_falsy_legacy u) as [Hkeep _].
  unfold get at 1. by rewrite (Hkeep Hold).
Qed.

Lemma report_stats_after_rehydration_witness :
  ∃ st',
    onRehydrateStorage (Some Examples.legacySession) = Some st'
    ∧ fetchReportStats "https://api" (accessToken st') (user st')
      = Fetch "https://api/inventory/summary?departmentId=D1"
              "Bearer access-1".
Proof.
  destruct (report_stats_after_rehydration "https://api"
              Examples.legacySession Examples.legacyStaffD1 eq_refl)
    as (st' & Hst' & Hsame).
  exists st'. split; [exact Hst'|]. rewrite Hsame. by vm_compute.
Defined.

(** * Key transformation *)

Import DataTransform.

Lemma toUpperCase_not_matched (letter : ascii) :
  is_lower letter = true →
  is_lower (toUpperCase letter) = false
  ∧ Ascii.eqb (toUpperCase letter) "_" = false.
Proof.
  destruct letter as [[] [] [] [] [] [] [] []]; intros Hl;
    try discriminate Hl; by vm_compute.
Qed.

Lemma starts_lower_snakeToCamel (s : string) :
  starts_lower (snakeToCamel s) = starts_lower s.
Proof.
  destruct s as [|c t]; [done|]. simpl.
  destruct (Ascii.eqb c "_") eqn:Hc; [|done].
  apply Ascii.eqb_eq in Hc as ->.
  destruct t as [|letter rest]; [done|].
  destruct (is_lower letter) eqn:Hl; [|done].
  simpl. by destruct (toUpperCase_not_matched letter Hl) as [-> _].
Qed.

(** The result of [snakeToCamel] has no match left; shown for a string
    and for the string with one more character in front, as the function
    consumes one or two characters at a time. *)
Lemma unmatched_snakeToCamel_aux (s : string) :
  unmatched (snakeToCamel s) = true
  ∧ ∀ c, unmatched (snakeToCamel (String c s)) = true.
Proof.
  induction s as [|letter rest [IHrest IHcons]].
  - split; [done|]. intros c. cbn [snakeToCamel].
    destruct (Ascii.eqb c "_") eqn:Hc; cbn [unmatched starts_lower];
      by rewrite ?Hc, ?andb_false_r.
  - split; [apply IHcons|]. intros c.
    change (snakeToCamel (String c (String letter rest)))
      with (if Ascii.eqb c "_" then
              if is_lower letter
              then String (toUpperCase letter) (snakeToCamel rest)
              else String c (snakeToCamel (String letter rest))
            else String c (snakeToCamel (String letter rest))).
    destruct (Ascii.eqb c "_") eqn:Hc.
    + destruct (is_lower letter) eqn:Hl.
      * change (unmatched (String (toUpperCase letter) (snakeToCamel rest)))
          with (negb (Ascii.eqb (toUpperCase letter) "_"
                      && starts_lower (snakeToCamel rest))
                && unmatched (snakeToCamel rest)).
        destruct (toUpperCase_not_matched letter Hl) as [_ ->].
        by rewrite IHrest.
      * change (unmatched (String c (snakeToCamel (String letter rest))))
          with (negb (Ascii.eqb c "_"
                      && starts_lower (snakeToCamel (String letter rest)))
                && unmatched (snakeToCamel (String letter rest))).
        rewrite starts_lower_snakeToCamel, (IHcons letter). simpl.
        by rewrite Hl, andb_false_r.
    + change (unmatched (String c (snakeToCamel (String letter rest))))
        with (negb (Ascii.eqb c "_"
                    && starts_lower (snakeToCamel (String letter rest)))
              && unmatched (snakeToCamel (String letter rest))).
      by rewrite Hc, (IHcons letter).
Qed.

Lemma unmatched_snakeToCamel (s : string) : unmatched (snakeToCamel s) = true.
Proof. apply unmatched_snakeToCamel_aux. Qed.

Lemma snakeToCamel_unmatched (s : string) :
  unmatched s = true → snakeToCamel s = s.
Proof.
  induction s as [|c t IH]; [done|]. simpl.
  intros [Hhead Ht]%andb_true_iff. rewrite (IH Ht).
  destruct (Ascii.eqb c "_"); [|done].
  destruct t as [|letter rest]; [done|]. simpl in Hhead.
  by destruct (is_lower letter).
Qed.

Lemma length_snakeToCamel_aux (s : string) :
  (String.length (snakeToCamel s) ≤ String.length s)%nat
  ∧ ∀ c, (String.length (snakeToCamel (String c s)) ≤ S (String.length s))%nat.
Proof.
  induction s as [|letter rest [IHrest IHcons]].
  - split; [done|]. intros c. cbn [snakeToCamel].
    by destruct (Ascii.eqb c "_").
  - split; [apply IHcons|]. intros c.
    change (snakeToCamel (String c (String letter rest)))
      with (if Ascii.eqb c "_" then
              if is_lower letter
              then String (toUpperCase letter) (snakeToCamel rest)
              else String c (snakeToCamel (String letter rest))
            else String c (snakeToCamel (String letter rest))).
    specialize (IHcons letter).
    destruct (Ascii.eqb c "_"), (is_lower letter); cbn [String.length] in *; lia.
Qed.

(** X24. [snakeToCamel] leaves no [_x] with a small letter [x] behind,
    so applying it again changes nothing; a string without such a pair
    is returned as it is; and the result is never longer than the
    argument. *)
Theorem snakeToCamel_idempotent (s : string) :
  unmatched (snakeToCamel s) = true
  ∧ snakeToCamel (snakeToCamel s) = snakeToCamel s
  ∧ (unmatched s = true → snakeToCamel s = s)
  ∧ (String.length (snakeToCamel s) ≤ String.length s)%nat.
Proof.
  split; [apply unmatched_snakeToCamel|].
  split; [apply snakeToCamel_unmatched, unmatched_snakeToCamel|].
  split; [apply snakeToCamel_unmatched | apply length_snakeToCamel_aux].
Qed.

Lemma snakeToCamel_idempotent_witness : snakeToCamel "sku" = "sku".
Proof.
  destruct (snakeToCamel_idempotent "sku") as (_ & _ & Hid & _).
  by apply Hid.
Defined.

(** The keys of the backend, in the layout of the client. *)
Example snakeToCamel_backend_keys :
  snakeToCamel "department_id" = "departmentId"
  ∧ snakeToCamel "department_name" = "departmentName"
  ∧ snakeToCamel "quantity_in_stock" = "quantityInStock"
  ∧ snakeToCamel "a__b" = "a_B"
  ∧ snakeToCamel "_1_x_" = "_1X_".
Proof. by vm_compute. Qed.

(** Induction over data, with the items of an array and the values of
    an object as induction hypotheses. *)
Lemma json_induction (P : json → Prop) :
  (∀ v, P (JPrim v)) →
  (∀ items, Forall P items → P (JArr items)) →
  (∀ entries, Forall (λ kv, P kv.2) entries → P (JObj entries)) →
  ∀ j, P j.
Proof.
  intros Hprim Harr Hobj. fix IH 1. intros [v | items | entries].
  - apply Hprim.
  - apply Harr. induction items as [|x items IHitems]; constructor.
    + apply IH.
    + exact IHitems.
  - apply Hobj. induction entries as [|[k v] entries IHentries]; constructor.
    + apply IH.
    + exact IHentries.
Qed.

Lemma camelCased_arr (items : list json) :
  camelCased (JArr items) ↔ Forall camelCased items.
Proof.
  cbn [camelCased]. induction items as [|x items IH].
  - split; [constructor | done].
  - rewrite Forall_cons, <- IH. done.
Qed.

Lemma camelCased_obj (entries : list (string * json)) :
  camelCased (JObj entries)
  ↔ NoDup (keys entries)
    ∧ Forall (λ kv, unmatched kv.1 = true ∧ camelCased kv.2) entries.
Proof.
  cbn [camelCased].
  assert ((fix all (l : list (string * json)) : Prop :=
             match l with
             | [] => True
             | (k, v) :: l' => unmatched k = true ∧ camelCased v ∧ all l'
             end) entries
          ↔ Forall (λ kv, unmatched kv.1 = true ∧ camelCased kv.2) entries)
    as ->; [|done].
  induction entries as [|[k v] entries IH].
  - split; [constructor | done].
  - rewrite Forall_cons, <- IH. simpl. tauto.
Qed.

Lemma keys_assign (o : list (string * json)) (k : string) (v : json) :
  keys (assign o k v) = if bool_decide (k ∈ keys o) then keys o else keys o ++ [k].
Proof.
  unfold keys. induction o as [|[k' v'] o IH]; [done|]. csimpl.
  destruct (String.eqb k' k) eqn:Hk.
  - apply String.eqb_eq in Hk as ->. csimpl.
    rewrite bool_decide_eq_true_2; [done | apply list_elem_of_here].
  - apply String.eqb_neq in Hk. csimpl. rewrite IH.
    destruct (bool_decide (k ∈ o.*1)) eqn:Hin.
    + apply bool_decide_eq_true in Hin.
      rewrite bool_decide_eq_true_2; [done | by apply list_elem_of_further].
    + apply bool_decide_eq_false in Hin.
      rewrite bool_decide_eq_false_2; [done|].
      intros [?|?]%elem_of_cons; congruence.
Qed.

Lemma assign_fresh (o : list (string * json)) (k : string) (v : json) :
  k ∉ keys o → assign o k v = o ++ [(k, v)].
Proof.
  unfold keys. induction o as [|[k' v'] o IH]; [done|]. csimpl.
  intros Hk. apply not_elem_of_cons in Hk as [Hne Hk].
  assert (String.eqb k' k = false) as -> by (apply String.eqb_neq; congruence).
  by rewrite IH.
Qed.

Lemma lookup_assign (o : list (string * json)) (k k' : string) (v : json) :
  lookup_entry (assign o k v) k'
  = if String.eqb k k' then Some v else lookup_entry o k'.
Proof.
  induction o as [|[k0 v0] o IH]; simpl.
  - done.
  - destruct (String.eqb k0 k) eqn:H0; simpl.
    + apply String.eqb_eq in H0 as ->. by destruct (String.eqb k k').
    + rewrite IH. destruct (String.eqb k0 k') eqn:H1; [|done].
      apply String.eqb_eq in H1 as ->. by rewrite String.eqb_sym, H0.
Qed.

Lemma assign_assign (o : list (string * json)) (k : string) (v v' : json) :
  assign (assign o k v) k v' = assign o k v'.
Proof.
  induction o as [|[k0 v0] o IH]; simpl.
  - by rewrite String.eqb_refl.
  - destruct (String.eqb k0 k) eqn:H0; simpl; rewrite H0; [done|].
    by rewrite IH.
Qed.

Lemma transformKeys_obj (entries : list (string * json)) :
  transformKeys (JObj entries) = JObj (transformEntries [] entries).
Proof. done. Qed.

(** What the loop builds is camel-cased when what it started from is. *)
Lemma transformEntries_camelCased (entries transformed : list (string * json)) :
  Forall (λ kv, camelCased (transformKeys kv.2)) entries →
  camelCased (JObj transformed) →
  camelCased (JObj (transformEntries transformed entries)).
Proof.
  revert transformed.
  induction entries as [|[k v] entries IH]; intros transformed Hall Hacc;
    [exact Hacc|].
  apply Forall_cons in Hall as [Hv Hall]. simpl in Hv.
  unfold transformEntries. simpl. apply IH; [exact Hall|].
  apply camelCased_obj in Hacc as [Hnodup Hacc].
  apply camelCased_obj. split.
  - rewrite keys_assign. case_bool_decide as Hin; [done|].
    apply NoDup_app. split; [done|]. split.
    + intros x Hx ->%list_elem_of_singleton. done.
    + apply NoDup_singleton.
  - clear Hnodup IH Hall.
    induction transformed as [|[k0 v0] transformed IHt]; simpl.
    + constructor; [|constructor]. split; [apply unmatched_snakeToCamel | done].
    + apply Forall_cons in Hacc as [[Hk0 Hv0] Hacc].
      destruct (String.eqb k0 (snakeToCamel k)); constructor; try done.
      by apply IHt.
Qed.

Lemma transformKeys_camelCased (j : json) : camelCased (transformKeys j).
Proof.
  induction j as [v | items IH | entries IH] using json_induction.
  - done.
  - cbn [transformKeys]. apply camelCased_arr.
    by apply Forall_fmap.
  - rewrite transformKeys_obj. apply transformEntries_camelCased; [exact IH|].
    apply camelCased_obj. split; [apply NoDup_nil_2 | constructor].
Qed.

(** On camel-cased entries with fresh keys the loop appends them as
    they are. *)
Lemma transformEntries_fresh (entries transformed : list (string * json)) :
  Forall (λ kv, unmatched kv.1 = true ∧ transformKeys kv.2 = kv.2) entries →
  NoDup (keys transformed ++ keys entries) →
  transformEntries transformed entries = transformed ++ entries.
Proof.
  revert transformed.
  induction entries as [|[k v] entries IH]; intros transformed Hall Hnodup.
  - by rewrite app_nil_r.
  - apply Forall_cons in Hall as [[Hk Hv] Hall]. simpl in Hk, Hv.
    unfold transformEntries. simpl.
    rewrite (snakeToCamel_unmatched k Hk), Hv.
    assert (k ∉ keys transformed) as Hfresh.
    { apply NoDup_app in Hnodup as (_ & Hdisj & _).
      intros Hin. apply (Hdisj k Hin). apply list_elem_of_here. }
    rewrite (assign_fresh _ _ _ Hfresh).
    fold (transformEntries (transformed ++ [(k, v)]) entries).
    rewrite IH; [by rewrite <- app_assoc | exact Hall |].
    unfold keys in *. rewrite fmap_app, <- app_assoc. exact Hnodup.
Qed.

Lemma transformKeys_fixes_camelCased (j : json) :
  camelCased j → transformKeys j = j.
Proof.
  induction j as [v | items IH | entries IH] using json_induction.
  - done.
  - intros Hc%camelCased_arr. cbn [transformKeys]. f_equal.
    induction items as [|x items IHitems]; [done|].
    apply Forall_cons in IH as [Hx IH]. apply Forall_cons in Hc as [Hcx Hc].
    simpl. by rewrite (Hx Hcx), (IHitems IH Hc).
  - intros [Hnodup Hc]%camelCased_obj. rewrite transformKeys_obj. f_equal.
    rewrite transformEntries_fresh; [done| |done].
    clear Hnodup. induction entries as [|[k v] entries IHentries]; [constructor|].
    apply Forall_cons in IH as [Hv IH]. apply Forall_cons in Hc as [[Hk Hcv] Hc].
    constructor; [|by apply IHentries]. split; [exact Hk | by apply Hv].
Qed.

(** X25. [transformKeys] returns data in which no key, at any depth, has
    a [_x] left and no object has a key twice; on such data it is the
    identity, so transforming twice is transforming once. *)
Theorem transformKeys_idempotent (obj : json) :
  camelCased (transformKeys obj)
  ∧ transformKeys (transformKeys obj) = transformKeys obj
  ∧ (camelCased obj → transformKeys obj = obj).
Proof.
  split; [apply transformKeys_camelCased|].
  split; [apply transformKeys_fixes_camelCased, transformKeys_camelCased|].
  apply transformKeys_fixes_camelCased.
Qed.

(** A key that no remaining entry maps to keeps its value through the
    loop. *)
Lemma lookup_transformEntries_other (entries transformed : list (string * json))
    (c : string) :
  c ∉ snakeToCamel <$> keys entries →
  lookup_entry (transformEntries transformed entries) c
  = lookup_entry transformed c.
Proof.
  revert transformed.
  induction entries as [|[k v] entries IH]; intros transformed Hc; [done|].
  unfold keys in Hc. rewrite !fmap_cons in Hc.
  apply not_elem_of_cons in Hc as [Hne Hc].
  unfold transformEntries. cbn [foldl].
  fold (transformEntries
          (assign transformed (snakeToCamel k) (transformKeys v)) entries).
  rewrite (IH _ Hc), lookup_assign.
  assert (String.eqb (snakeToCamel k) c = false) as ->; [|done].
  apply String.eqb_neq. simpl in Hne. congruence.
Qed.

Lemma lookup_transformEntries (entries transformed : list (string * json))
    (k : string) (v : json) :
  NoDup (snakeToCamel <$> keys entries) →
  (k, v) ∈ entries →
  lookup_entry (transformEntries transformed entries) (snakeToCamel k)
  = Some (transformKeys v).
Proof.
  revert transformed.
  induction entries as [|[k0 v0] entries IH]; intros transformed Hnodup Hin.
  { by apply elem_of_nil in Hin. }
  unfold keys in Hnodup. rewrite !fmap_cons in Hnodup.
  apply NoDup_cons in Hnodup as [Hfresh Hnodup].
  unfold transformEntries. cbn [foldl].
  fold (transformEntries
          (assign transformed (snakeToCamel k0) (transformKeys v0)) entries).
  apply elem_of_cons in Hin as [[= -> ->] | Hin].
  - rewrite (lookup_transformEntries_other _ _ _ Hfresh), lookup_assign.
    by rewrite String.eqb_refl.
  - by apply IH.
Qed.

(** X26. In an object whose keys stay apart under [snakeToCamel], every
    property is found again under the camel-cased key, with its value
    transformed. *)
Theorem transformKeys_lookup (entries : list (string * json)) (k : string)
    (v : json) :
  NoDup (snakeToCamel <$> keys entries) →
  (k, v) ∈ entries →
  jget (transformKeys (JObj entries)) (snakeToCamel k) = transformKeys v.
Proof.
  intros Hnodup Hin. rewrite transformKeys_obj. cbn [jget].
  by rewrite (lookup_transformEntries _ _ k v).
Qed.

Lemma transformKeys_lookup_witness :
  jget (transformKeys
          (JObj [("id", JPrim (str "p1"));
                 ("department_id", JPrim (str "D1"))]))
       "departmentId"
  = JPrim (str "D1").
Proof.
  apply (transformKeys_lookup
           [("id", JPrim (str "p1")); ("department_id", JPrim (str "D1"))]
           "department_id" (JPrim (str "D1"))).
  - vm_compute. apply NoDup_cons. split.
    + intros Hin%list_elem_of_singleton. discriminate Hin.
    + apply NoDup_singleton.
  - apply list_elem_of_further, list_elem_of_here.
Defined.

(** Two keys with the same camel-cased form end up as one property, at
    the place of the first and with the value of the last. *)
Example transformKeys_collision :
  transformKeys (JObj [("a_b", JPrim (number 1)); ("x", JPrim null);
                       ("aB", JPrim (number 2))])
  = JObj [("aB", JPrim (number 2)); ("x", JPrim null)].
Proof. by vm_compute. Qed.

Lemma jtruthy_transformKeys (j : json) : jtruthy (transformKeys j) = jtruthy j.
Proof. by destruct j. Qed.

(** X27. [transformApiResponse] touches the [data] property only: it
    holds the transformed data afterwards and every other property is
    as it was; a response without (truthy) data is returned as it is;
    and transforming a response twice is transforming it once. *)
Theorem transformApiResponse_data (response : json) :
  jget (transformApiResponse response) "data"
  = transformKeys (jget response "data")
  ∧ (∀ k, k ≠ "data" → jget (transformApiResponse response) k = jget response k)
  ∧ (jtruthy (jget response "data") = false →
       transformApiResponse response = response)
  ∧ transformApiResponse (transformApiResponse response)
    = transformApiResponse response.
Proof.
  unfold transformApiResponse.
  destruct (negb (jtruthy response) || negb (jtruthy (jget response "data")))
    eqn:Hskip.
  - split; [|split; [done|split; [done|by rewrite Hskip]]].
    apply orb_true_iff in Hskip as [Hr | Hd].
    + by destruct response as [[| |[]| |]| |].
    + apply negb_true_iff in Hd.
      by destruct (jget response "data") as [v| |].
  - apply orb_false_iff in Hskip as [Hr Hd].
    apply negb_false_iff in Hd.
    destruct response as [v | items | entries]; [done | done |].
    assert (jget (JObj (assign entries "data"
                          (transformKeys (jget (JObj entries) "data")))) "data"
            = transformKeys (jget (JObj entries) "data")) as Hdata.
    { cbn [jget]. by rewrite lookup_assign. }
    split; [exact Hdata|]. split; [|split].
    + intros k Hk. cbn [jget]. rewrite lookup_assign.
      assert (String.eqb "data" k = false) as ->; [|done].
      apply String.eqb_neq. congruence.
    + intros Hfalse. congruence.
    + rewrite Hdata, jtruthy_transformKeys, Hd. simpl.
      rewrite assign_assign.
      by rewrite (transformKeys_fixes_camelCased _
                    (transformKeys_camelCased
                       (default (JPrim undefined) (lookup_entry entries "data")))).
Qed.

(** ** The further properties at the sample data *)


Lemma first_request_carries_token_witness :
  Authorization (withCredential (store Examples.world0) Examples.request)
  = Some (bearer "access-1").
Proof.
  destruct (first_request_carries_token Examples.expiringBackend 0
              Examples.request Examples.world0)
    as (r & w' & rest & _ & _ & _ & Htoken & _).
  by apply Htoken.
Defined.

Lemma notify_shows_one_reason_witness :
  ∃ shown,
    notify {| status := Some 401; data_error := Some "Invalid credentials";
              message := "Request failed with status code 401" |}
           Examples.world0
    = (tt, {| store := Examples.session; trace := [] ++ shown |})
    ∧ shown = [].
Proof.
  destruct (notify_shows_one_reason
              {| status := Some 401; data_error := Some "Invalid credentials";
                 message := "Request failed with status code 401" |}
              Examples.world0) as (shown & Hrun & _ & _ & _ & Hsilent).
  exists shown. split; [exact Hrun|]. apply Hsilent. by left.
Defined.

Lemma handleLogout_always_logs_out_witness :
  let ui := {| world := Examples.world0; successes := [] |} in
  ∃ rest,
    trace (world (handleLogout Examples.revokedBackend ui))
    = [] ++ Sent (withCredential Examples.session logoutRequest) :: rest.
Proof.
  destruct (handleLogout_always_logs_out Examples.revokedBackend
              {| world := Examples.world0; successes := [] |} None)
    as (_ & _ & _ & _ & _ & _ & _ & _ & Hsent).
  by apply Hsent.
Defined.

Lemma transformKeys_idempotent_witness :
  transformKeys (JObj [("departmentId", JPrim (str "D1"))])
  = JObj [("departmentId", JPrim (str "D1"))].
Proof.
  destruct (transformKeys_idempotent (JObj [("departmentId", JPrim (str "D1"))]))
    as (_ & _ & Hfix).
  apply Hfix. apply camelCased_obj. split.
  - apply NoDup_singleton.
  - by repeat constructor.
Defined.

Lemma transformApiResponse_data_witness :
  transformApiResponse (JObj [("status", JPrim (number 200))])
  = JObj [("status", JPrim (number 200))].
Proof.
  destruct (transformApiResponse_data (JObj [("status", JPrim (number 200))]))
    as (_ & _ & Hnone & _).
  by apply Hnone.
Defined.
